(** * irproc: quick IR spectrum processing

    A shallow embedding of [irproc.py] (peak normalisation, detection,
    classification and report assembly) together with the properties of its
    report pipeline.

    Numbers.  The program computes on numpy [float64] arrays.  They are
    modelled by exact rationals [Q]: comparisons and the four operations are
    the mathematical ones, rounding is abstracted away, and equalities between
    computed values are stated up to [Qeq].  What is proved of computed
    values is therefore proved up to rounding: in double precision the
    deepest sample of a normalised spectrum, 0 here, can come out a few
    units in the last place away from 0, also below it (and [desc] then
    raises on it), and a width or prominence can miss by rounding a
    threshold that it reaches here.

    The only place where the program leaves the rationals is a division by
    zero inside an array expression (numpy goes on with nan and inf after a
    warning).  [process_file] marks that outcome as [NonFinite]; the run of
    [main] on such a file is followed through [ms_report_not_finite]. *)

From Stdlib Require Import ZArith QArith Qround List String Ascii Bool Lia.
From Stdlib Require Import DecimalString DecimalN DecimalPos Sorted Lqa Qabs.
Import ListNotations.

Local Open Scope Q_scope.

(** ** Outcomes of a Python call *)

Inductive exn : Type :=
| ValueError
| IndexError
| KeyError
| AttributeError
| TypeError.

Inductive outcome (A : Type) : Type :=
| Ok (a : A)
| Raise (e : exn)
| NonFinite.

Arguments Ok {A} a.
Arguments Raise {A} e.
Arguments NonFinite {A}.

Definition bind {A B : Type} (c : outcome A) (k : A -> outcome B) : outcome B :=
  match c with
  | Ok a => k a
  | Raise e => Raise e
  | NonFinite => NonFinite
  end.

Declare Scope outcome_scope.
Delimit Scope outcome_scope with outcome.
Notation "x <- c ;; k" := (bind c (fun x => k))
  (at level 61, c at next level, right associativity) : outcome_scope.
Notation "' p <- c ;; k" := (bind c (fun x => let p := x in k))
  (at level 61, p pattern, c at next level, right associativity) : outcome_scope.

(** [a[i]] on a Python list or numpy array, for a non-negative index. *)
Definition index {A : Type} (a : list A) (i : nat) : outcome A :=
  match nth_error a i with
  | Some v => Ok v
  | None => Raise IndexError
  end.

(** [mapM]: the loop body is run on each element in order, the first failure
    ends the loop. *)
Fixpoint for_each {A B : Type} (body : A -> outcome B) (l : list A)
  : outcome (list B) :=
  match l with
  | [] => Ok []
  | a :: l' =>
      (b <- body a ;;
       bs <- for_each body l' ;;
       Ok (b :: bs))%outcome
  end.

(** [enumerate(l)] *)
Fixpoint enumerate_from {A : Type} (i : nat) (l : list A) : list (nat * A) :=
  match l with
  | [] => []
  | a :: l' => (i, a) :: enumerate_from (S i) l'
  end.

Definition enumerate {A : Type} (l : list A) : list (nat * A) :=
  enumerate_from 0 l.

(** ** Comparisons on numbers *)

Definition Qleb (a b : Q) : bool := Qle_bool a b.
Definition Qltb (a b : Q) : bool := negb (Qle_bool b a).
Definition Qeqb (a b : Q) : bool := Qeq_bool a b.

(** ** The input file

    [pd.read_csv(file_name, header=1, index_col=False)] followed by the two
    column selections: a file is represented by what the reader delivers, the
    columns ["cm-1"] and ["%T"], by its name as [glob] gave it and by the
    absolute path printed in its header line. *)

Record csv_file : Type := {
  name : string;
  abspath : string;
  col_cm1 : list Q;
  col_T : list Q
}.

(** [np.max] of a one-dimensional array: [ValueError] on an empty one. *)
Fixpoint max_from (m : Q) (l : list Q) : Q :=
  match l with
  | [] => m
  | x :: l' => max_from (if Qltb m x then x else m) l'
  end.

Definition np_max (a : list Q) : outcome Q :=
  match a with
  | [] => Raise ValueError
  | x :: l => Ok (max_from x l)
  end.

(** [100 - 100 * ir_inv / m] on arrays; a zero divisor gives nan or inf. *)
Definition rescale (ir_inv : list Q) (m : Q) : outcome (list Q) :=
  if Qeqb m 0 then NonFinite
  else Ok (map (fun v => 100 - 100 * v / m) ir_inv).

Definition process_file (f : csv_file) (normalize : bool)
  : outcome (list Q * list Q) :=
  let ir_w := col_cm1 f in
  let ir_t_raw := col_T f in
  if normalize then
    let ir_inv := map (fun t => 100 - t) ir_t_raw in
    (m <- np_max ir_inv ;;
     ir_t <- rescale ir_inv m ;;
     Ok (ir_w, ir_t))%outcome
  else
    Ok (ir_w, ir_t_raw).

(** ** The classifier *)

(** [sep.join(res)] *)
Definition join (sep : string) (res : list string) : string :=
  String.concat sep res.

Definition desc (trel w br_w : Q) (sep : string) : outcome string :=
  (res <-
     (if Qleb 0 trel && Qleb trel 33 then Ok ["s"%string]
      else if Qltb 33 trel && Qltb trel 66 then Ok ["m"%string]
      else if Qltb 66 trel && Qleb trel 100 then Ok ["w"%string]
      else Raise ValueError) ;;
   let res := if Qltb br_w w then res ++ ["br"%string] else res in
   Ok ("(" ++ join sep res ++ ")")%string)%outcome.

(** ** The detector: [scipy.signal.find_peaks]

    [ms_report] hands the inverted signal and the three thresholds to
    [find_peaks] of SciPy, a library the program imports.  The rest of the
    pipeline is stated over an arbitrary detector; the module below follows
    SciPy's implementation, for the keyword arguments the program passes
    ([prominence], [width], [distance]; [height], [threshold], [wlen] and
    [plateau_size] are absent, [rel_height] is 0.5), and serves where a
    property depends on what the detector does. *)

Definition detector : Type :=
  list Q -> Q -> Q -> Q -> outcome (list nat * list Q).

Module Scipy.

(** An array read at an index known to be in range. *)
Definition get (x : list Q) (i : nat) : Q := nth i x 0.

(** [_local_maxima_1d]: the inner loop walks over a plateau, the outer one
    over the samples; a loop counter bounds each (see [local_maxima_fuel]). *)
Fixpoint plateau_end (x : list Q) (i_max : nat) (xi : Q) (i_ahead fuel : nat)
  : nat :=
  match fuel with
  | O => i_ahead
  | S fuel' =>
      if (i_ahead <? i_max)%nat && Qeqb (get x i_ahead) xi
      then plateau_end x i_max xi (S i_ahead) fuel'
      else i_ahead
  end.

Fixpoint local_maxima_loop (x : list Q) (i_max i fuel : nat) : list nat :=
  match fuel with
  | O => []
  | S fuel' =>
      if (i <? i_max)%nat then
        if Qltb (get x (i - 1)) (get x i) then
          let i_ahead := plateau_end x i_max (get x i) (S i) (i_max - i) in
          if Qltb (get x i_ahead) (get x i) then
            ((i + (i_ahead - 1)) / 2)%nat
              :: local_maxima_loop x i_max (S i_ahead) fuel'
          else local_maxima_loop x i_max (S i) fuel'
        else local_maxima_loop x i_max (S i) fuel'
      else []
  end.

Definition local_maxima_1d (x : list Q) : list nat :=
  local_maxima_loop x (List.length x - 1) 1 (List.length x).

(** [np.argsort(priority)], as a stable insertion sort of the positions.
    numpy leaves the order of equal priorities to its sorting routine; no
    statement below depends on it. *)
Fixpoint insert_by (pr : nat -> Q) (j : nat) (l : list nat) : list nat :=
  match l with
  | [] => [j]
  | k :: l' => if Qltb (pr j) (pr k) then j :: l else k :: insert_by pr j l'
  end.

Definition argsort (priority : list Q) : list nat :=
  fold_left (fun acc j => insert_by (get priority) j acc)
            (seq 0 (List.length priority)) [].

(** [keep[k] = 0] *)
Fixpoint clear (k : nat) (keep : list bool) : list bool :=
  match keep, k with
  | [], _ => []
  | _ :: keep', O => false :: keep'
  | b :: keep', S k' => b :: clear k' keep'
  end.

Definition peak_at (peaks : list nat) (k : nat) : Z := Z.of_nat (nth k peaks O).

(** The two inner loops of [_select_by_peak_distance]; the first argument
    [k1] of the left one is [k + 1]. *)
Fixpoint suppress_left (peaks : list nat) (distance_ : Z) (j k1 : nat)
  (keep : list bool) : list bool :=
  match k1 with
  | O => keep
  | S k =>
      if (peak_at peaks j - peak_at peaks k <? distance_)%Z
      then suppress_left peaks distance_ j k (clear k keep)
      else keep
  end.

Fixpoint suppress_right (peaks : list nat) (distance_ : Z) (j k fuel : nat)
  (keep : list bool) : list bool :=
  match fuel with
  | O => keep
  | S fuel' =>
      if (k <? List.length peaks)%nat
         && (peak_at peaks k - peak_at peaks j <? distance_)%Z
      then suppress_right peaks distance_ j (S k) fuel' (clear k keep)
      else keep
  end.

Definition select_step (peaks : list nat) (distance_ : Z)
  (keep : list bool) (j : nat) : list bool :=
  if nth j keep false then
    let keep := suppress_left peaks distance_ j j keep in
    suppress_right peaks distance_ j (S j) (List.length peaks) keep
  else keep.

Definition select_by_peak_distance (peaks : list nat) (priority : list Q)
  (distance : Q) : list bool :=
  let distance_ := Qceiling distance in
  fold_left (select_step peaks distance_)
            (rev (argsort priority))
            (repeat true (List.length peaks)).

(** [a[keep]] for a boolean mask [keep]. *)
Fixpoint mask {A : Type} (keep : list bool) (a : list A) : list A :=
  match keep, a with
  | b :: keep', v :: a' => if b then v :: mask keep' a' else mask keep' a'
  | _, _ => []
  end.

(** [_peak_prominences] with [wlen = -1]: for one peak, the lowest sample
    and its position on each side, up to the first higher sample. *)
Fixpoint left_base (x : list Q) (xp : Q) (i : nat) (left_min : Q) (b : nat)
  : Q * nat :=
  if Qleb (get x i) xp then
    let '(m, b') := if Qltb (get x i) left_min then (get x i, i)
                    else (left_min, b) in
    match i with
    | O => (m, b')
    | S i' => left_base x xp i' m b'
    end
  else (left_min, b).

Fixpoint right_base (x : list Q) (xp : Q) (i fuel : nat) (right_min : Q)
  (b : nat) : Q * nat :=
  match fuel with
  | O => (right_min, b)
  | S fuel' =>
      if Qleb (get x i) xp then
        let '(m, b') := if Qltb (get x i) right_min then (get x i, i)
                        else (right_min, b) in
        right_base x xp (S i) fuel' m b'
      else (right_min, b)
  end.

Definition Qmax (a b : Q) : Q := if Qltb a b then b else a.

Record prominence_data : Type := {
  prom : Q;
  lbase : nat;
  rbase : nat
}.

Definition peak_prominence (x : list Q) (peak : nat) : prominence_data :=
  let xp := get x peak in
  let '(left_min, lb) := left_base x xp peak xp peak in
  let '(right_min, rb) := right_base x xp peak (List.length x - peak) xp peak in
  {| prom := xp - Qmax left_min right_min; lbase := lb; rbase := rb |}.

(** [_peak_widths] at [rel_height = 0.5]: the two crossings of the
    evaluation height, linearly interpolated between samples. *)
Fixpoint left_cross (x : list Q) (height : Q) (i_min i : nat) : nat :=
  match i with
  | O => O
  | S i' =>
      if (i_min <? i)%nat && Qltb height (get x i)
      then left_cross x height i_min i'
      else i
  end.

Fixpoint right_cross (x : list Q) (height : Q) (i_max i fuel : nat) : nat :=
  match fuel with
  | O => i
  | S fuel' =>
      if (i <? i_max)%nat && Qltb height (get x i)
      then right_cross x height i_max (S i) fuel'
      else i
  end.

Definition peak_width (x : list Q) (peak : nat) (pd : prominence_data) : Q :=
  let height := get x peak - prom pd * (1 # 2) in
  let i := left_cross x height (lbase pd) peak in
  let left_ip :=
    if Qltb (get x i) height
    then inject_Z (Z.of_nat i)
         + (height - get x i) / (get x (i + 1) - get x i)
    else inject_Z (Z.of_nat i) in
  let i := right_cross x height (rbase pd) peak (List.length x - peak) in
  let right_ip :=
    if Qltb (get x i) height
    then inject_Z (Z.of_nat i)
         - (height - get x i) / (get x (i - 1) - get x i)
    else inject_Z (Z.of_nat i) in
  right_ip - left_ip.

(** [_select_by_property] with a lower bound only. *)
Definition at_least (pmin : Q) (property : list Q) : list bool :=
  map (fun v => Qleb pmin v) property.

Definition find_peaks : detector := fun x prominence width distance =>
  if Qltb distance 1 then Raise ValueError
  else
    let peaks := local_maxima_1d x in
    let keep := select_by_peak_distance peaks (map (get x) peaks) distance in
    let peaks := mask keep peaks in
    let proms := map (peak_prominence x) peaks in
    let keep := at_least prominence (map prom proms) in
    let peaks := mask keep peaks in
    let proms := mask keep proms in
    let widths := map (fun '(p, pd) => peak_width x p pd) (combine peaks proms) in
    let keep := at_least width widths in
    Ok (mask keep peaks, mask keep widths).

End Scipy.

(** ** Formatting

    [f"{v:.0f}"]: the nearest integer in decimal, ties going to the even
    neighbour, with the sign of [v] kept in front (so a small negative value
    prints as [-0]). *)

Definition round_half_even (q : Q) : Z :=
  let fl := Qfloor q in
  let r := q - inject_Z fl in
  if Qltb r (1 # 2) then fl
  else if Qltb (1 # 2) r then (fl + 1)%Z
  else if Z.even fl then fl else (fl + 1)%Z.

Definition digits (z : Z) : string :=
  NilZero.string_of_uint (N.to_uint (Z.to_N z)).

Definition format_0f (v : Q) : string :=
  if Qltb v 0 then ("-" ++ digits (round_half_even (- v)))%string
  else digits (round_half_even v).

(** [d[1:-1]] on a string. *)
Definition strip_ends (d : string) : string :=
  substring 1 (String.length d - 2) d.

(** ** The report pipeline, over any detector *)

(** A label drawn on the axes by [ax.text(x, y, s, ...)]. *)
Record overlay : Type := {
  text_x : Q;
  text_y : Q;
  text_s : string
}.

(** The parsed command line, as far as the pipeline reads it.  Of the
    pattern [parsed.plot] the program uses one thing, the call
    [parsed.plot.format(FILENAME=fname)]: [plot_format] is that call as a
    function of [fname], giving the formatted name or the exception of
    [str.format] (a field the pattern does not know, an unmatched brace, a
    bad index or format specification). *)
Record arguments : Type := {
  peak_min_prominence : Q;
  peak_min_width : Q;
  broad_peak_min_width : Q;
  peak_min_distance : Q;
  raw : bool;
  plot_format : string -> exn + string
}.

(** [s.removesuffix(suffix)] *)
Fixpoint removesuffix (s suffix : string) : string :=
  if String.eqb s suffix then EmptyString
  else match s with
       | EmptyString => EmptyString
       | String c s' => String c (removesuffix s' suffix)
       end.

Section Pipeline.

Variable find_peaks : detector.

(** The generator is run to its end by its only consumer, the loop of
    [generate_report]; an exception of [find_peaks] or of [desc] leaves that
    loop and [generate_report] with it.  [np.average] and [np.std] of the
    widths raise nothing, and their values are not used.  Note the call of
    [desc]: it is given three arguments, [sep] takes its default. *)
Definition ms_report (ir_w ir_t : list Q) (prominence width distance br_w : Q)
  (sep : string) : outcome (list (nat * string)) :=
  ('(peaks, widths) <-
     find_peaks (map (fun t => 100 - t) ir_t) prominence width distance ;;
   for_each
     (fun '(i, p) =>
        trel <- index ir_t p ;;
        w <- index widths i ;;
        de <- desc trel w br_w " " ;;
        Ok (p, de))
     (enumerate peaks))%outcome.

(** The result pairs what was written on the axes with the returned [report].
    [normalize] is any Python value used as a truth value; the program passes
    an integer. *)
Definition generate_report (f : csv_file) (normalize : Z)
  (prominence width broad_width distance : Q)
  : outcome (list overlay * list string) :=
  ('(x, y) <- process_file f true ;;
   peaks <- ms_report x y prominence width distance broad_width " " ;;
   drawn <- for_each
     (fun '(p, d) =>
        xp <- index x p ;;
        yp <- index y p ;;
        Ok ({| text_x := xp; text_y := yp - 8;
               text_s := format_0f xp ++ " " ++ strip_ends d |},
            (format_0f xp ++ " " ++ d)%string))
     peaks ;;
   Ok (map fst drawn, map snd drawn))%outcome.

(** Where the normalised array is not finite.  A zero maximum of
    [100 - t] makes every normalised sample nan or +inf (a warning of numpy,
    no exception), so the program goes on: the signal [100 - ir_t] given to
    the detector holds nan and -inf only, and no sample of it compares below
    another.  The detector is given here a constant signal of the same
    length, which has that property too (SciPy's routine then checks the
    distance and finds no local maximum).  Were a position returned, [desc]
    would raise on the sample there: each of its tests fails on nan, the
    upper bounds fail on +inf. *)
Definition ms_report_not_finite (n : nat) (prominence width distance : Q)
  : outcome (list (nat * string)) :=
  ('(peaks, widths) <- find_peaks (repeat 0 n) prominence width distance ;;
   for_each
     (fun '(i, p) =>
        trel <- index (repeat 0 n) p ;;
        w <- index widths i ;;
        Raise ValueError)
     (enumerate peaks))%outcome.

(** [generate_report] from there on: its loop runs over the peaks, and
    there is none when [ms_report] returns. *)
Definition generate_report_not_finite (f : csv_file)
  (prominence width broad_width distance : Q)
  : outcome (list overlay * list string) :=
  (peaks <- ms_report_not_finite (List.length (col_T f))
                                 prominence width distance ;;
   Ok ([], []))%outcome.

Definition summary_line (report : list string) : string :=
  ("IR (ATR): " ++ join ", " report ++ ".")%string.

(** What the call of [generate_report] in [main] gives back.  [main] has
    read the file itself just before; [~parsed.raw] is the bitwise
    complement of a boolean. *)
Definition returned_report (parsed : arguments) (f : csv_file)
  : outcome (list overlay * list string) :=
  match process_file f true with
  | Ok _ =>
      generate_report f (Z.lnot (Z.b2z (raw parsed)))
        (peak_min_prominence parsed) (peak_min_width parsed)
        (broad_peak_min_width parsed) (peak_min_distance parsed)
  | Raise e => Raise e
  | NonFinite =>
      generate_report_not_finite f
        (peak_min_prominence parsed) (peak_min_width parsed)
        (broad_peak_min_width parsed) (peak_min_distance parsed)
  end.

(** One turn of the loop of [main]: the lines printed to [outstream], and how
    the turn ends.  The message about the plot goes to [stderr]; formatting
    the plot name comes before the summary line and can raise. *)
Definition main_file (parsed : arguments) (f : csv_file)
  : list string * outcome unit :=
  let fname := removesuffix (name f) ".csv" in
  let header := (">>> " ++ abspath f)%string in
  match returned_report parsed f with
  | Ok (_, report) =>
      match plot_format parsed fname with
      | inr plot_name => ([header; summary_line report], Ok tt)
      | inl e => ([header], Raise e)
      end
  | Raise e => ([header], Raise e)
  | NonFinite => ([header], NonFinite)
  end.

(** The loop of [main] over the files; an exception ends the program.
    With SciPy's detector a turn ends normally or by an exception
    ([main_file_scipy_ending]). *)
Fixpoint main_loop (parsed : arguments) (all_files : list csv_file)
  : list string * outcome unit :=
  match all_files with
  | [] => ([], Ok tt)
  | f :: rest =>
      match main_file parsed f with
      | (out, Ok _) =>
          let '(out', r) := main_loop parsed rest in ((out ++ out')%list, r)
      | (out, r) => (out, r)
      end
  end.

End Pipeline.

(** ** Notions used by the statements *)

(** Equality of two arrays of numbers, sample by sample. *)
Definition same_samples (a b : list Q) : Prop := Forall2 Qeq a b.

(** The normalisation as the specification writes it:
    [100 - 100 * (100 - t) / max_inverted] for each sample [t]. *)
Definition normalized (ts : list Q) (max_inverted : Q) : list Q :=
  map (fun t => 100 - 100 * (100 - t) / max_inverted) ts.

(** A report line as the specification of the report generator words it:
    the wavenumber, a space, the tags without their parentheses. *)
Definition line_without_parentheses (xp : Q) (d : string) : string :=
  (format_0f xp ++ " " ++ strip_ends d)%string.

(** The line the program appends to the report. *)
Definition report_line (xp : Q) (d : string) : string :=
  (format_0f xp ++ " " ++ d)%string.

Definition strictly_increasing (l : list nat) : Prop := StronglySorted lt l.

(** The same file with another transmittance column. *)
Definition with_T (f : csv_file) (ts : list Q) : csv_file :=
  {| name := name f; abspath := abspath f;
     col_cm1 := col_cm1 f; col_T := ts |}.

(** Sample inputs. *)
Definition spectrum_1715 : csv_file :=
  {| name := "ketone.csv";
     abspath := "/data/ketone.csv";
     col_cm1 := [1719; 1718; 1717; 1716; 1715; 1714; 1713; 1712; 1711];
     col_T := [100; 90; 80; 70; 60; 70; 80; 90; 100] |}.

Definition spectrum_above_100 : csv_file :=
  {| name := "offset.csv";
     abspath := "/data/offset.csv";
     col_cm1 := [1000; 999];
     col_T := [101; 102] |}.

(** The default pattern, ["{FILENAME}.svg"]. *)
Definition default_plot_format (fname : string) : exn + string :=
  inr (fname ++ ".svg")%string.

Definition default_arguments : arguments :=
  {| peak_min_prominence := 5;
     peak_min_width := 4;
     broad_peak_min_width := 100;
     peak_min_distance := 30;
     raw := false;
     plot_format := default_plot_format |}.

Definition raw_arguments : arguments :=
  {| peak_min_prominence := 5;
     peak_min_width := 4;
     broad_peak_min_width := 100;
     peak_min_distance := 30;
     raw := true;
     plot_format := default_plot_format |}.

Definition negative_arguments : arguments :=
  {| peak_min_prominence := -5;
     peak_min_width := -4;
     broad_peak_min_width := 100;
     peak_min_distance := 30;
     raw := false;
     plot_format := default_plot_format |}.

Definition negative_distance_arguments : arguments :=
  {| peak_min_prominence := 5;
     peak_min_width := 4;
     broad_peak_min_width := 100;
     peak_min_distance := -30;
     raw := false;
     plot_format := default_plot_format |}.

(** What the loop of [generate_report] writes for one classified peak
    [(p, d)], when [p] is a valid position in [x] and [y]. *)
Definition line_of (x : list Q) (pk : nat * string) : string :=
  report_line (nth (fst pk) x 0) (snd pk).

Definition overlay_of (x y : list Q) (pk : nat * string) : overlay :=
  {| text_x := nth (fst pk) x 0;
     text_y := nth (fst pk) y 0 - 8;
     text_s := line_without_parentheses (nth (fst pk) x 0) (snd pk) |}.

(** The positions in a detector's answer. *)
Definition fmap_peaks (r : outcome (list nat * list Q)) : outcome (list nat) :=
  (pw <- r ;; Ok (fst pw))%outcome.

(** The descriptors of a summary line as the specification words it:
    one after the other, a comma and a space between two of them. *)
Fixpoint comma_separated (descriptors : list string) : string :=
  match descriptors with
  | [] => EmptyString
  | [d] => d
  | d :: rest => (d ++ ", " ++ comma_separated rest)%string
  end.

(** More sample inputs: two dips, the second one on a plateau; a flat
    spectrum at full transmittance. *)
Definition spectrum_two_dips : csv_file :=
  {| name := "ester.csv";
     abspath := "/data/ester.csv";
     col_cm1 := [2926; 2925; 2924; 2923; 2922; 2921; 2920];
     col_T := [100; 20; 100; 100; 80; 80; 100] |}.

Definition spectrum_flat : csv_file :=
  {| name := "blank.csv";
     abspath := "/data/blank.csv";
     col_cm1 := [1002; 1001; 1000];
     col_T := [100; 100; 100] |}.

Definition sensitive_arguments : arguments :=
  {| peak_min_prominence := 2;
     peak_min_width := 1 # 2;
     broad_peak_min_width := 1;
     peak_min_distance := 1;
     raw := false;
     plot_format := default_plot_format |}.

(** ** The detector's answer, peak by peak

    Prominence and width of a position of the signal, as [find_peaks]
    computes them, and the positions it lets through: the local maxima kept
    by the distance rule, then those of sufficient prominence, then those of
    sufficient width. *)

Definition prominence_of (x : list Q) (p : nat) : Q :=
  Scipy.prom (Scipy.peak_prominence x p).

Definition width_of (x : list Q) (p : nat) : Q :=
  Scipy.peak_width x p (Scipy.peak_prominence x p).

Definition distance_selected (x : list Q) (distance : Q) : list nat :=
  let peaks := Scipy.local_maxima_1d x in
  Scipy.mask
    (Scipy.select_by_peak_distance peaks (map (Scipy.get x) peaks) distance)
    peaks.

Definition accepted (x : list Q) (prominence width distance : Q) : list nat :=
  filter (fun p => Qleb width (width_of x p))
         (filter (fun p => Qleb prominence (prominence_of x p))
                 (distance_selected x distance)).

(** The body of the loop of [ms_report] for a peak at position [p] of
    width [w]. *)
Definition describe_peak (ir_t : list Q) (br_w : Q) (w : Q) (p : nat)
  : outcome (nat * string) :=
  (trel <- index ir_t p ;;
   de <- desc trel w br_w " " ;;
   Ok (p, de))%outcome.

(** The transmittances [desc] classifies: 0 to 100, without 66. *)
Definition classified (t : Q) : Prop := 0 <= t /\ t <= 100 /\ ~ t == 66.

(** ** The list of files

    [glob] of the standard library answers from the file system; it is a
    parameter here. *)
Definition get_all_files (glob : string -> list string)
  (file_args : list string) : list string :=
  fold_left (fun all_files f => (all_files ++ glob f)%list) file_args [].

(** * Properties *)

(** ** Comparisons *)

Lemma Qleb_spec (a b : Q) : Qleb a b = true <-> a <= b.
Proof. apply Qle_bool_iff. Qed.

Lemma Qltb_spec (a b : Q) : Qltb a b = true <-> a < b.
Proof.
  unfold Qltb. rewrite negb_true_iff. split; intro H.
  - apply Qnot_le_lt. intro Hle. apply Qle_bool_iff in Hle. congruence.
  - destruct (Qle_bool b a) eqn:E; [|reflexivity].
    apply Qle_bool_iff in E. exfalso. exact (Qlt_not_le _ _ H E).
Qed.

Lemma Qleb_false (a b : Q) : Qleb a b = false <-> b < a.
Proof.
  rewrite <- Qltb_spec. unfold Qltb, Qleb.
  destruct (Qle_bool a b); simpl; intuition congruence.
Qed.

Lemma Qltb_false (a b : Q) : Qltb a b = false <-> b <= a.
Proof.
  rewrite <- Qleb_spec. unfold Qltb, Qleb.
  destruct (Qle_bool b a); simpl; intuition congruence.
Qed.

Lemma Qeqb_spec (a b : Q) : Qeqb a b = true <-> a == b.
Proof. apply Qeq_bool_iff. Qed.

Lemma Qeqb_false (a b : Q) : Qeqb a b = false <-> ~ a == b.
Proof.
  rewrite <- Qeqb_spec. destruct (Qeqb a b); intuition congruence.
Qed.

(** Turns the boolean tests of a goal or hypothesis into facts on [Q]. *)
Ltac Qtests :=
  repeat match goal with
  | H : andb _ _ = true |- _ => apply andb_true_iff in H; destruct H
  | H : andb _ _ = false |- _ => apply andb_false_iff in H
  | H : Qleb _ _ = true |- _ => apply Qleb_spec in H
  | H : Qleb _ _ = false |- _ => apply Qleb_false in H
  | H : Qltb _ _ = true |- _ => apply Qltb_spec in H
  | H : Qltb _ _ = false |- _ => apply Qltb_false in H
  | H : Qeqb _ _ = true |- _ => apply Qeqb_spec in H
  | H : Qeqb _ _ = false |- _ => apply Qeqb_false in H
  end.

(** ** The classifier *)

Example desc_strong_broad : desc 20 150 100 " " = Ok "(s br)"%string.
Proof. reflexivity. Qed.

Example desc_weak : desc 80 5 100 " " = Ok "(w)"%string.
Proof. reflexivity. Qed.

(** The intensity test alone: which values of the transmittance get a tag. *)
Lemma desc_raises_iff (t w br_w : Q) (sep : string) :
  desc t w br_w sep = Raise ValueError <-> (t < 0 \/ 100 < t \/ t == 66).
Proof.
  unfold desc.
  destruct (Qleb 0 t && Qleb t 33) eqn:E1; simpl.
  { split; [discriminate|]. Qtests. intros [Hd|[Hd|Hd]]; exfalso; lra. }
  destruct (Qltb 33 t && Qltb t 66) eqn:E2; simpl.
  { split; [discriminate|]. Qtests. intros [Hd|[Hd|Hd]]; exfalso; lra. }
  destruct (Qltb 66 t && Qleb t 100) eqn:E3; simpl.
  { split; [discriminate|]. Qtests. intros [Hd|[Hd|Hd]]; exfalso; lra. }
  split; [intros _|reflexivity]. Qtests.
  destruct (Qlt_le_dec t 0) as [Hn|Hn]; [left; exact Hn|].
  destruct (Qlt_le_dec 100 t) as [Hb|Hb]; [right; left; exact Hb|].
  right; right.
  destruct E1 as [E1|E1], E2 as [E2|E2], E3 as [E3|E3]; Qtests; lra.
Qed.

Lemma desc_total (t w br_w : Q) (sep : string) :
  (exists d, desc t w br_w sep = Ok d) \/ desc t w br_w sep = Raise ValueError.
Proof.
  unfold desc.
  destruct (Qleb 0 t && Qleb t 33);
    [|destruct (Qltb 33 t && Qltb t 66); [|destruct (Qltb 66 t && Qleb t 100)]];
    simpl; eauto.
Qed.

(** C2. The boundary values of the intensity tag: 0 and 33 are strong,
    33.0001 is medium, 66.0001 and 100 are weak, as the claim says; at 66
    itself, which the claim tags medium, [desc] raises [ValueError], whatever
    the width, the breadth threshold and the separator. *)
Theorem desc_boundary_values :
  desc 0 5 100 " " = Ok "(s)"%string /\
  desc 33 5 100 " " = Ok "(s)"%string /\
  desc (330001 # 10000) 5 100 " " = Ok "(m)"%string /\
  desc (660001 # 10000) 5 100 " " = Ok "(w)"%string /\
  desc 100 5 100 " " = Ok "(w)"%string /\
  forall (w br_w : Q) (sep : string), desc 66 w br_w sep = Raise ValueError.
Proof.
  repeat split; try reflexivity.
Qed.

(** C3. A transmittance inside the range 0 to 100 on which the classifier
    returns no classification string: at 66 it raises [ValueError], the
    exception it keeps for values outside the range. *)
Theorem desc_in_range_raises :
  0 <= 66 /\ 66 <= 100 /\
  forall (w br_w : Q) (sep : string),
    desc 66 w br_w sep = Raise ValueError /\
    ~ exists d, desc 66 w br_w sep = Ok d.
Proof.
  split; [lra|]. split; [lra|]. intros w br_w sep.
  assert (H : desc 66 w br_w sep = Raise ValueError)
    by (apply desc_raises_iff; right; right; reflexivity).
  split; [exact H|]. intros [d Hd]. congruence.
Qed.

(** ** Normalisation *)

Lemma max_from_spec (l : list Q) : forall m,
  In (max_from m l) (m :: l) /\ Forall (fun v => v <= max_from m l) (m :: l).
Proof.
  induction l as [|x l IH]; intro m; simpl.
  - split; [left; reflexivity|]. constructor; [apply Qle_refl|constructor].
  - destruct (IH (if Qltb m x then x else m)) as [Hin Hall].
    inversion Hall as [|? ? Hhd Htl]; subst. split.
    + destruct Hin as [Hin|Hin]; [|right; right; exact Hin].
      rewrite <- Hin. destruct (Qltb m x); [right; left|left]; reflexivity.
    + destruct (Qltb m x) eqn:E; Qtests.
      * constructor; [lra|]. constructor; assumption.
      * constructor; [assumption|]. constructor; [lra|assumption].
Qed.

Lemma np_max_spec (a : list Q) (m : Q) :
  np_max a = Ok m -> In m a /\ Forall (fun v => v <= m) a.
Proof.
  destruct a as [|x l]; simpl; [discriminate|].
  intro H. injection H as <-. apply max_from_spec.
Qed.

Lemma np_max_defined (a : list Q) :
  a <> [] -> exists m, np_max a = Ok m.
Proof. destruct a; [congruence|]. intros _. simpl. eauto. Qed.

Lemma process_file_normalize (f : csv_file) (M : Q) :
  np_max (map (fun t => 100 - t) (col_T f)) = Ok M -> ~ M == 0 ->
  process_file f true = Ok (col_cm1 f, normalized (col_T f) M).
Proof.
  intros HM Hnz. unfold process_file. rewrite HM. simpl.
  unfold rescale. apply Qeqb_false in Hnz. rewrite Hnz. simpl.
  unfold normalized. rewrite map_map. reflexivity.
Qed.

(** C7. With normalisation on and a maximum [M] of [100 - t] that is not
    zero, [process_file] returns [100 - 100 * (100 - t) / M] for each sample
    [t]; [M] is reached at some sample and bounds the others, and every sample
    that reaches it is mapped to 0. *)
Theorem process_file_normalized_formula (f : csv_file) (M : Q) :
  np_max (map (fun t => 100 - t) (col_T f)) = Ok M ->
  ~ M == 0 ->
  process_file f true = Ok (col_cm1 f, normalized (col_T f) M) /\
  (forall t, In t (col_T f) -> 100 - t <= M) /\
  (exists i t, nth_error (col_T f) i = Some t /\ 100 - t = M) /\
  (forall i t, nth_error (col_T f) i = Some t -> 100 - t == M ->
     exists n, nth_error (normalized (col_T f) M) i = Some n /\ n == 0).
Proof.
  intros HM Hnz. split; [apply process_file_normalize; assumption|].
  destruct (np_max_spec _ _ HM) as [Hin Hall]. split; [|split].
  - intros t Ht. rewrite Forall_forall in Hall.
    apply (Hall (100 - t)). apply in_map_iff. exists t. split; trivial.
  - apply in_map_iff in Hin. destruct Hin as [t [Ht Hin]].
    apply In_nth_error in Hin. destruct Hin as [i Hi]. exists i, t. auto.
  - intros i t Hi Ht. exists (100 - 100 * (100 - t) / M). split.
    + unfold normalized. rewrite nth_error_map, Hi. reflexivity.
    + rewrite Ht. field. exact Hnz.
Qed.

Lemma process_file_normalized_witness :
  np_max (map (fun t => 100 - t) (col_T spectrum_1715)) = Ok 40 /\
  process_file spectrum_1715 true
  = Ok (col_cm1 spectrum_1715, normalized (col_T spectrum_1715) 40).
Proof.
  split; [reflexivity|].
  apply (process_file_normalized_formula spectrum_1715 40).
  - reflexivity.
  - intro H. discriminate H.
Defined.

Lemma same_samples_map (h : Q -> Q) (l : list Q) :
  (forall t, h t == t) -> same_samples l (map h l).
Proof.
  intro H. induction l; simpl; constructor; auto. symmetry. apply H.
Qed.

(** C10, as amended. When some sample lies below 100 (the maximum of
    [100 - t] is positive), normalising the normalised transmittance gives
    the same samples again. *)
Theorem normalization_idempotent (f : csv_file) (M : Q) :
  np_max (map (fun t => 100 - t) (col_T f)) = Ok M ->
  0 < M ->
  exists y y',
    process_file f true = Ok (col_cm1 f, y) /\
    process_file (with_T f y) true = Ok (col_cm1 f, y') /\
    same_samples y y'.
Proof.
  intros HM Hpos.
  assert (Hnz : ~ M == 0) by lra.
  destruct (np_max_spec _ _ HM) as [Hin Hall].
  set (y := normalized (col_T f) M).
  assert (Hne : map (fun t => 100 - t) y <> []).
  { unfold y, normalized. destruct (col_T f); simpl; [destruct Hin|congruence]. }
  destruct (np_max_defined _ Hne) as [M' HM'].
  destruct (np_max_spec _ _ HM') as [Hin' Hall'].
  assert (H100 : M' == 100).
  { apply Qle_antisym.
    - apply in_map_iff in Hin'. destruct Hin' as [n [<- Hn]].
      unfold y, normalized in Hn. apply in_map_iff in Hn.
      destruct Hn as [t [<- Ht]].
      rewrite Forall_forall in Hall.
      assert (Hle : 100 - t <= M).
      { apply Hall. apply in_map_iff. exists t. split; trivial. }
      assert (E : 100 - (100 - 100 * (100 - t) / M)
                  == 100 - 100 * (M - (100 - t)) / M) by (field; exact Hnz).
      rewrite E.
      assert (0 <= 100 * (M - (100 - t)) / M).
      { apply Qle_shift_div_l; [exact Hpos|]. lra. }
      lra.
    - apply in_map_iff in Hin. destruct Hin as [t [Ht Hin]].
      rewrite Forall_forall in Hall'.
      assert (Hle : 100 - (100 - 100 * (100 - t) / M) <= M').
      { apply Hall'. apply in_map_iff.
        exists (100 - 100 * (100 - t) / M). split; [reflexivity|].
        unfold y, normalized. apply in_map_iff. exists t. split; trivial. }
      assert (E : 100 - (100 - 100 * (100 - t) / M) == 100).
      { rewrite Ht. field. exact Hnz. }
      rewrite E in Hle. exact Hle. }
  assert (Hnz' : ~ M' == 0) by (rewrite H100; lra).
  exists y, (normalized y M'). split; [|split].
  - apply process_file_normalize; assumption.
  - apply (process_file_normalize (with_T f y) M'); assumption.
  - unfold normalized at 1. apply same_samples_map.
    intro t. rewrite H100. field.
Qed.

Lemma normalization_idempotent_witness :
  exists y y',
    process_file spectrum_1715 true = Ok (col_cm1 spectrum_1715, y) /\
    process_file (with_T spectrum_1715 y) true
    = Ok (col_cm1 spectrum_1715, y') /\
    same_samples y y'.
Proof.
  apply (normalization_idempotent spectrum_1715 40).
  - reflexivity.
  - reflexivity.
Defined.

(** C10, as stated, fails on a spectrum whose samples all lie above 100:
    the transmittances 101 and 102 are normalised to 0 and -100, and these to
    50 and 0. *)
Lemma normalization_not_idempotent :
  exists y y',
    process_file spectrum_above_100 true = Ok (col_cm1 spectrum_above_100, y) /\
    process_file (with_T spectrum_above_100 y) true
    = Ok (col_cm1 spectrum_above_100, y') /\
    ~ same_samples y y'.
Proof.
  eexists. eexists. split; [reflexivity|]. split; [reflexivity|].
  intro H. inversion H as [|a b l l' Hab Hrest]; subst.
  vm_compute in Hab. discriminate Hab.
Qed.

(** ** Loops and indexing *)

Lemma index_Ok {A : Type} (a : list A) (i : nat) (v d : A) :
  index a i = Ok v -> (i < List.length a)%nat /\ nth i a d = v.
Proof.
  unfold index. destruct (nth_error a i) eqn:E; [|discriminate].
  intro H. injection H as <-. split.
  - apply nth_error_Some. congruence.
  - apply nth_error_nth. exact E.
Qed.

Lemma index_in_range {A : Type} (a : list A) (i : nat) (d : A) :
  (i < List.length a)%nat -> index a i = Ok (nth i a d).
Proof.
  intro H. unfold index.
  rewrite (nth_error_nth' a d H). reflexivity.
Qed.

Lemma bind_Ok {A B : Type} (c : outcome A) (k : A -> outcome B) (b : B) :
  bind c k = Ok b -> exists a, c = Ok a /\ k a = Ok b.
Proof. destruct c; simpl; try discriminate. eauto. Qed.

(** Splits a successful sequence of calls into its steps. *)
Ltac bind_inv H :=
  repeat match type of H with
  | bind _ _ = Ok _ =>
      let a := fresh "a" in
      let Ha := fresh "Ha" in
      apply bind_Ok in H; destruct H as [a [Ha H]]
  end.

Lemma for_each_Ok {A B : Type} (body : A -> outcome B) (l : list A) :
  forall bs, for_each body l = Ok bs ->
             Forall2 (fun a b => body a = Ok b) l bs.
Proof.
  induction l as [|a l IH]; simpl; intros bs H.
  - injection H as <-. constructor.
  - apply bind_Ok in H. destruct H as [b [Hb H]].
    apply bind_Ok in H. destruct H as [bs' [Hbs H]].
    injection H as <-. constructor; auto.
Qed.

Lemma for_each_run {A B : Type} (body : A -> outcome B) (l : list A) :
  forall bs, Forall2 (fun a b => body a = Ok b) l bs ->
             for_each body l = Ok bs.
Proof.
  intros bs H. induction H as [|a b l bs Hab _ IH]; simpl; [reflexivity|].
  rewrite Hab. simpl. rewrite IH. reflexivity.
Qed.

Lemma for_each_pure {A B : Type} (body : A -> outcome B) (g : A -> B)
  (l : list A) :
  Forall (fun a => body a = Ok (g a)) l -> for_each body l = Ok (map g l).
Proof.
  intro H. apply for_each_run.
  induction H; simpl; constructor; auto.
Qed.

Lemma enumerate_from_snd {A : Type} (l : list A) :
  forall i, map snd (enumerate_from i l) = l.
Proof. induction l; simpl; intros; [|rewrite IHl]; reflexivity. Qed.

(** ** Strings *)

Lemma substring_prefix (s t : string) :
  substring 0 (String.length s) (s ++ t) = s.
Proof. induction s; simpl; [destruct t; reflexivity|]. rewrite IHs. reflexivity. Qed.

Lemma length_append (s t : string) :
  String.length (s ++ t) = (String.length s + String.length t)%nat.
Proof. induction s; simpl; [reflexivity|]. rewrite IHs. reflexivity. Qed.

Lemma strip_ends_parentheses (tags : string) :
  strip_ends ("(" ++ tags ++ ")") = tags.
Proof.
  unfold strip_ends. simpl. rewrite length_append. simpl.
  replace (String.length tags + 1 - 1)%nat with (String.length tags) by lia.
  apply substring_prefix.
Qed.

(** [removesuffix] takes a suffix away, and nothing else. *)
Lemma removesuffix_append (s suffix : string) :
  removesuffix (s ++ suffix) suffix = s.
Proof.
  induction s as [|c s IH].
  - simpl. destruct suffix; simpl; [reflexivity|].
    rewrite Ascii.eqb_refl, String.eqb_refl. reflexivity.
  - cbn [append removesuffix].
    assert (E : String.eqb (String c (s ++ suffix)) suffix = false).
    { apply String.eqb_neq. intro H.
      apply (f_equal String.length) in H. simpl in H.
      rewrite length_append in H. lia. }
    rewrite E, IH. reflexivity.
Qed.

Example removesuffix_csv : removesuffix "ketone.csv" ".csv" = "ketone"%string.
Proof. reflexivity. Qed.

Example removesuffix_other : removesuffix "ketone.txt" ".csv" = "ketone.txt"%string.
Proof. reflexivity. Qed.

(** The classification string: the intensity tag, then the breadth tag
    after the separator, all in parentheses. *)
Lemma desc_form (t w br_w : Q) (sep d : string) :
  desc t w br_w sep = Ok d ->
  exists tag : string,
    (tag = "s" \/ tag = "m" \/ tag = "w")%string /\
    d = ("(" ++ (if Qltb br_w w then tag ++ sep ++ "br" else tag) ++ ")")%string.
Proof.
  unfold desc.
  destruct (Qleb 0 t && Qleb t 33);
    [|destruct (Qltb 33 t && Qltb t 66); [|destruct (Qltb 66 t && Qleb t 100)]];
    simpl; intro H; try discriminate; injection H as <-;
    [exists "s"%string|exists "m"%string|exists "w"%string];
    (split; [tauto|]); destruct (Qltb br_w w); reflexivity.
Qed.

Lemma desc_parentheses (t w br_w : Q) (sep d : string) :
  desc t w br_w sep = Ok d -> exists tags, d = ("(" ++ tags ++ ")")%string.
Proof.
  intro H. apply desc_form in H. destruct H as [tag [_ ->]]. eauto.
Qed.

(** ** The pipeline, over any detector *)

Lemma Forall2_map_both {A B C : Type} (R : A -> B -> Prop)
  (g : A -> C) (h : B -> C) (l : list A) (bs : list B) :
  (forall a b, R a b -> h b = g a) -> Forall2 R l bs -> map h bs = map g l.
Proof. intros HR H. induction H; simpl; [|rewrite IHForall2, (HR _ _ H)]; reflexivity. Qed.

Lemma Forall2_Forall_r {A B : Type} (R : A -> B -> Prop) (P : B -> Prop)
  (l : list A) (bs : list B) :
  (forall a b, R a b -> P b) -> Forall2 R l bs -> Forall P bs.
Proof. intros HR H. induction H; constructor; eauto. Qed.

Lemma Forall2_graph {A B : Type} (P : A -> Prop) (g : A -> B)
  (l : list A) (bs : list B) :
  Forall2 (fun a b => P a /\ b = g a) l bs -> Forall P l /\ bs = map g l.
Proof.
  induction 1 as [|a b l bs [Ha ->] _ [IH1 ->]]; simpl; auto.
Qed.

Section PipelineFacts.

Variable find_peaks : detector.

(** A peak list returned by [ms_report] is the detector's, in its order, each
    peak with the classification of the transmittance at its position. *)
Lemma ms_report_inv (ir_w ir_t : list Q) (prominence width distance br_w : Q)
  (sep : string) (pks : list (nat * string)) :
  ms_report find_peaks ir_w ir_t prominence width distance br_w sep = Ok pks ->
  exists peaks widths,
    find_peaks (map (fun t => 100 - t) ir_t) prominence width distance
    = Ok (peaks, widths) /\
    map fst pks = peaks /\
    Forall (fun pk => exists trel w,
                index ir_t (fst pk) = Ok trel /\
                desc trel w br_w " " = Ok (snd pk)) pks.
Proof.
  unfold ms_report. intro H. apply bind_Ok in H.
  destruct H as [[peaks widths] [Hfp H]].
  exists peaks, widths. split; [exact Hfp|].
  apply for_each_Ok in H. split.
  - rewrite <- (enumerate_from_snd peaks 0).
    apply (Forall2_map_both _ snd fst _ _) with (2 := H).
    intros [i p] b Hb. bind_inv Hb. injection Hb as <-. reflexivity.
  - apply (Forall2_Forall_r _ _ _ _) with (2 := H).
    intros [i p] b Hb. bind_inv Hb. injection Hb as <-. simpl. eauto.
Qed.

(** The separator given to [ms_report] plays no part in its result. *)
Lemma ms_report_any_sep (ir_w ir_t : list Q) (prominence width distance br_w : Q)
  (sep sep' : string) :
  ms_report find_peaks ir_w ir_t prominence width distance br_w sep
  = ms_report find_peaks ir_w ir_t prominence width distance br_w sep'.
Proof. reflexivity. Qed.

(** Nor does the normalisation flag given to [generate_report]. *)
Lemma generate_report_any_normalize (f : csv_file) (n n' : Z)
  (prominence width broad_width distance : Q) :
  generate_report find_peaks f n prominence width broad_width distance
  = generate_report find_peaks f n' prominence width broad_width distance.
Proof. reflexivity. Qed.

Lemma process_file_lengths (f : csv_file) (b : bool) (x y : list Q) :
  List.length (col_cm1 f) = List.length (col_T f) ->
  process_file f b = Ok (x, y) ->
  x = col_cm1 f /\ List.length x = List.length y.
Proof.
  unfold process_file. intros Hlen H. destruct b.
  - bind_inv H. injection H as <- <-. split; [reflexivity|].
    unfold rescale in Ha0. destruct (Qeqb a 0); [discriminate|].
    injection Ha0 as <-. rewrite !length_map. exact Hlen.
  - injection H as <- <-. auto.
Qed.

Lemma generate_report_inv (f : csv_file) (n : Z)
  (prominence width broad_width distance : Q)
  (drawn : list overlay) (report : list string) :
  generate_report find_peaks f n prominence width broad_width distance
  = Ok (drawn, report) ->
  exists x y pks,
    process_file f true = Ok (x, y) /\
    ms_report find_peaks x y prominence width distance broad_width " " = Ok pks /\
    Forall (fun pk => (fst pk < List.length x)%nat
                      /\ (fst pk < List.length y)%nat) pks /\
    drawn = map (overlay_of x y) pks /\
    report = map (line_of x) pks.
Proof.
  unfold generate_report. intro H. apply bind_Ok in H.
  destruct H as [[x y] [Hpf H]]. apply bind_Ok in H.
  destruct H as [pks [Hms H]]. apply bind_Ok in H.
  destruct H as [both [Hloop H]]. injection H as <- <-.
  exists x, y, pks. split; [exact Hpf|]. split; [exact Hms|].
  apply for_each_Ok in Hloop.
  assert (Hall : Forall2 (fun pk b =>
             ((fst pk < List.length x)%nat /\ (fst pk < List.length y)%nat)
             /\ b = (overlay_of x y pk, line_of x pk)) pks both).
  { eapply Forall2_impl; [|exact Hloop].
    intros [p d] b Hb. simpl in Hb. bind_inv Hb. injection Hb as <-.
    apply (index_Ok _ _ _ 0) in Ha. apply (index_Ok _ _ _ 0) in Ha0.
    destruct Ha as [? <-], Ha0 as [? <-]. auto. }
  apply Forall2_graph in Hall. destruct Hall as [Hin ->].
  rewrite !map_map. simpl. auto.
Qed.

Lemma generate_report_run (f : csv_file) (n : Z)
  (prominence width broad_width distance : Q)
  (x y : list Q) (pks : list (nat * string)) :
  List.length (col_cm1 f) = List.length (col_T f) ->
  process_file f true = Ok (x, y) ->
  ms_report find_peaks x y prominence width distance broad_width " " = Ok pks ->
  generate_report find_peaks f n prominence width broad_width distance
  = Ok (map (overlay_of x y) pks, map (line_of x) pks).
Proof.
  intros Hlen Hpf Hms. unfold generate_report. rewrite Hpf. simpl.
  rewrite Hms. simpl.
  destruct (process_file_lengths _ _ _ _ Hlen Hpf) as [_ Hxy].
  destruct (ms_report_inv _ _ _ _ _ _ _ _ Hms) as [peaks [widths [_ [_ Hall]]]].
  rewrite (for_each_pure _ (fun pk => (overlay_of x y pk, line_of x pk))).
  - simpl. rewrite !map_map. reflexivity.
  - eapply Forall_impl; [|exact Hall].
    intros [p d] [trel [w [Hi _]]]. simpl in Hi.
    apply (index_Ok _ _ _ 0) in Hi. destruct Hi as [Hp _].
    rewrite (index_in_range x p 0) by lia. simpl.
    rewrite (index_in_range y p 0) by lia. reflexivity.
Qed.

End PipelineFacts.

Section MainFacts.

Variable find_peaks : detector.

Lemma returned_report_finite (parsed : arguments) (f : csv_file)
  (xy : list Q * list Q) :
  process_file f true = Ok xy ->
  returned_report find_peaks parsed f
  = generate_report find_peaks f (Z.lnot (Z.b2z (raw parsed)))
      (peak_min_prominence parsed) (peak_min_width parsed)
      (broad_peak_min_width parsed) (peak_min_distance parsed).
Proof. intro H. unfold returned_report. rewrite H. reflexivity. Qed.

Lemma main_file_of_report (parsed : arguments) (f : csv_file)
  (drawn : list overlay) (report : list string) (plot_name : string) :
  returned_report find_peaks parsed f = Ok (drawn, report) ->
  plot_format parsed (removesuffix (name f) ".csv") = inr plot_name ->
  main_file find_peaks parsed f
  = ([(">>> " ++ abspath f)%string; summary_line report], Ok tt).
Proof. intros Hr Hp. unfold main_file. rewrite Hr, Hp. reflexivity. Qed.

Lemma main_file_of_raise (parsed : arguments) (f : csv_file) (e : exn) :
  returned_report find_peaks parsed f = Raise e ->
  main_file find_peaks parsed f = ([(">>> " ++ abspath f)%string], Raise e).
Proof. intro Hr. unfold main_file. rewrite Hr. reflexivity. Qed.

(** A plot pattern that [str.format] rejects ends the turn after the header
    line: the summary line is not printed. *)
Lemma main_file_of_plot_failure (parsed : arguments) (f : csv_file)
  (drawn : list overlay) (report : list string) (e : exn) :
  returned_report find_peaks parsed f = Ok (drawn, report) ->
  plot_format parsed (removesuffix (name f) ".csv") = inl e ->
  main_file find_peaks parsed f = ([(">>> " ++ abspath f)%string], Raise e).
Proof. intros Hr Hp. unfold main_file. rewrite Hr, Hp. reflexivity. Qed.

(** The header line of a file is printed before anything can fail. *)
Lemma main_file_header_first (parsed : arguments) (f : csv_file) :
  exists rest,
    fst (main_file find_peaks parsed f) = (">>> " ++ abspath f)%string :: rest.
Proof.
  unfold main_file.
  destruct (returned_report find_peaks parsed f) as [[? ?]| |]; simpl; eauto.
  destruct (plot_format parsed _); simpl; eauto.
Qed.

(** When [ms_report] returns on an array that is not finite, it returns no
    peak. *)
Lemma ms_report_not_finite_empty (n : nat) (prominence width distance : Q)
  (pks : list (nat * string)) :
  ms_report_not_finite find_peaks n prominence width distance = Ok pks ->
  pks = [].
Proof.
  unfold ms_report_not_finite. intro H. apply bind_Ok in H.
  destruct H as [[peaks widths] [_ H]]. unfold enumerate in H.
  destruct peaks as [|p peaks]; simpl in H; [congruence|].
  destruct (index (repeat 0 n) p); simpl in H; try discriminate.
  destruct (index widths 0); simpl in H; discriminate.
Qed.

Lemma generate_report_not_finite_empty (f : csv_file)
  (prominence width broad_width distance : Q)
  (drawn : list overlay) (report : list string) :
  generate_report_not_finite find_peaks f prominence width broad_width distance
  = Ok (drawn, report) ->
  drawn = [] /\ report = [].
Proof.
  unfold generate_report_not_finite. intro H. apply bind_Ok in H.
  destruct H as [pks [_ H]]. injection H as <- <-. auto.
Qed.

Lemma process_file_wavenumbers (f : csv_file) (b : bool) (x y : list Q) :
  process_file f b = Ok (x, y) -> x = col_cm1 f.
Proof.
  unfold process_file. destruct b; intro H.
  - bind_inv H. injection H as <- _. reflexivity.
  - injection H as <- _. reflexivity.
Qed.

(** Every line of a report handed to [main] is a wavenumber of the file,
    printed without decimals, a space, and tags in parentheses. *)
Lemma returned_report_lines (parsed : arguments) (f : csv_file)
  (drawn : list overlay) (report : list string) :
  returned_report find_peaks parsed f = Ok (drawn, report) ->
  Forall (fun line => exists xp tags,
              In xp (col_cm1 f) /\
              line = (format_0f xp ++ " (" ++ tags ++ ")")%string) report.
Proof.
  unfold returned_report.
  destruct (process_file f true) as [[x y]|e|] eqn:Hpf; intro H.
  - apply generate_report_inv in H.
    destruct H as [x' [y' [pks [Hpf' [Hms [Hin [_ ->]]]]]]].
    rewrite Hpf in Hpf'. injection Hpf' as <- <-.
    apply process_file_wavenumbers in Hpf. subst x.
    destruct (ms_report_inv _ _ _ _ _ _ _ _ _ Hms) as [_ [_ [_ [_ Hd]]]].
    rewrite Forall_forall in *. intros line Hline.
    apply in_map_iff in Hline. destruct Hline as [[p d] [<- Hpk]].
    destruct (Hin _ Hpk) as [Hx _]. destruct (Hd _ Hpk) as [trel [w [_ Hdesc]]].
    simpl in *. apply desc_parentheses in Hdesc. destruct Hdesc as [tags ->].
    exists (nth p (col_cm1 f) 0), tags. split; [apply nth_In; exact Hx|].
    reflexivity.
  - discriminate H.
  - apply generate_report_not_finite_empty in H. destruct H as [_ ->].
    constructor.
Qed.

End MainFacts.

(** Whatever [--raw] says, [main] hands a true value to [generate_report]. *)
Lemma complement_of_flag_is_true (b : bool) : Z.lnot (Z.b2z b) <> 0%Z.
Proof. destruct b; discriminate. Qed.

(** ** Claims on the pipeline *)

Example main_file_1715 :
  main_file Scipy.find_peaks default_arguments spectrum_1715
  = ([">>> /data/ketone.csv"; "IR (ATR): 1715 (s)."]%string, Ok tt).
Proof. vm_compute. reflexivity. Qed.

(** C1. A run with [--raw] on a file whose deepest sample is at 60: the
    peak is reported strong, its class after normalisation (60 becomes 0),
    exactly as in a run without [--raw], while the transmittance as read
    from the file, given to the same detection and classification, is of
    medium intensity. *)
Theorem raw_run_reports_normalized_peak :
  main_file Scipy.find_peaks raw_arguments spectrum_1715
  = ([">>> /data/ketone.csv"; "IR (ATR): 1715 (s)."]%string, Ok tt) /\
  main_file Scipy.find_peaks raw_arguments spectrum_1715
  = main_file Scipy.find_peaks default_arguments spectrum_1715 /\
  ms_report Scipy.find_peaks (col_cm1 spectrum_1715) (col_T spectrum_1715)
            5 4 30 100 " "
  = Ok [(4%nat, "(m)"%string)].
Proof. repeat split; vm_compute; reflexivity. Qed.




(** C5. [ms_report] called with the separator ["-"] on a strong and broad
    peak: the classification comes out with a space between the tags, where
    [desc] given that separator writes ["(s-br)"]. *)
Theorem ms_report_drops_separator :
  ms_report Scipy.find_peaks
            (col_cm1 spectrum_1715) [100; 75; 50; 25; 0; 25; 50; 75; 100]
            5 4 30 3 "-"
  = Ok [(4%nat, "(s br)"%string)] /\
  desc 0 4 3 "-" = Ok "(s-br)"%string /\
  desc 0 4 3 " " = Ok "(s br)"%string.
Proof. repeat split; vm_compute; reflexivity. Qed.

Lemma join_comma_separated (report : list string) :
  join ", " report = comma_separated report.
Proof.
  unfold join. induction report as [|d rest IH]; [reflexivity|].
  destruct rest as [|d' rest]; [reflexivity|].
  change (String.concat ", " (d :: d' :: rest))
    with (d ++ ", " ++ String.concat ", " (d' :: rest))%string.
  rewrite IH. reflexivity.
Qed.



(** ** The detector *)

Example find_peaks_triangle :
  Scipy.find_peaks [0; 25; 50; 75; 100; 75; 50; 25; 0] 5 4 30
  = Ok ([4%nat], [inject_Z 6 - inject_Z 2]).
Proof. vm_compute. reflexivity. Qed.

(** A plateau in the middle of the signal is reported at its midpoint, and
    of two peaks closer than [distance] the higher one is kept. *)
Example find_peaks_plateau :
  fmap_peaks (Scipy.find_peaks [0; 1; 3; 3; 3; 1; 0] 0 0 1) = Ok [3%nat].
Proof. vm_compute. reflexivity. Qed.

Example find_peaks_distance :
  fmap_peaks (Scipy.find_peaks [0; 5; 0; 9; 0; 4; 0] 0 0 3) = Ok [3%nat].
Proof. vm_compute. reflexivity. Qed.

Module ScipyFacts.
Import Scipy.

Lemma plateau_end_ge (x : list Q) (i_max : nat) (xi : Q) :
  forall fuel i, (i <= plateau_end x i_max xi i fuel)%nat.
Proof.
  induction fuel as [|fuel IH]; intro i; simpl; [lia|].
  destruct ((i <? i_max)%nat && Qeqb (get x i) xi); [|lia].
  specialize (IH (S i)). lia.
Qed.

(** The loop counters do not cut the loops short. *)
Lemma plateau_end_fuel (x : list Q) (i_max : nat) (xi : Q) :
  forall f1 f2 i, (i_max - i <= f1)%nat -> (i_max - i <= f2)%nat ->
    plateau_end x i_max xi i f1 = plateau_end x i_max xi i f2.
Proof.
  induction f1 as [|f1 IH]; intros f2 i H1 H2.
  - assert (E : (i <? i_max)%nat = false) by (apply Nat.ltb_ge; lia).
    destruct f2; simpl; [reflexivity|]. rewrite E. reflexivity.
  - destruct f2 as [|f2]; simpl.
    + assert (E : (i <? i_max)%nat = false) by (apply Nat.ltb_ge; lia).
      rewrite E. reflexivity.
    + destruct (i <? i_max)%nat eqn:E; simpl; [|reflexivity].
      apply Nat.ltb_lt in E.
      destruct (Qeqb (get x i) xi); [|reflexivity].
      apply IH; lia.
Qed.

Lemma local_maxima_fuel (x : list Q) (i_max : nat) :
  forall f1 f2 i, (i_max - i <= f1)%nat -> (i_max - i <= f2)%nat ->
    local_maxima_loop x i_max i f1 = local_maxima_loop x i_max i f2.
Proof.
  induction f1 as [|f1 IH]; intros f2 i H1 H2.
  - assert (E : (i <? i_max)%nat = false) by (apply Nat.ltb_ge; lia).
    destruct f2; simpl; [reflexivity|]. rewrite E. reflexivity.
  - destruct f2 as [|f2]; simpl.
    + assert (E : (i <? i_max)%nat = false) by (apply Nat.ltb_ge; lia).
      rewrite E. reflexivity.
    + destruct (i <? i_max)%nat eqn:E; [|reflexivity].
      apply Nat.ltb_lt in E.
      pose proof (plateau_end_ge x i_max (get x i) (i_max - i) (S i)) as Hge.
      destruct (Qltb (get x (i - 1)) (get x i)); [|apply IH; lia].
      destruct (Qltb (get x (plateau_end x i_max (get x i) (S i) (i_max - i)))
                     (get x i)); [|apply IH; lia].
      f_equal. apply IH; lia.
Qed.

Lemma local_maxima_loop_sorted (x : list Q) (i_max : nat) :
  forall fuel i,
    Forall (fun m => (i <= m)%nat) (local_maxima_loop x i_max i fuel) /\
    StronglySorted lt (local_maxima_loop x i_max i fuel).
Proof.
  induction fuel as [|fuel IH]; intro i; simpl.
  - split; constructor.
  - destruct (i <? i_max)%nat; [|split; constructor].
    assert (Hnext : Forall (fun m => (i <= m)%nat)
                      (local_maxima_loop x i_max (S i) fuel) /\
                    StronglySorted lt (local_maxima_loop x i_max (S i) fuel)).
    { destruct (IH (S i)) as [Hall Hs]. split; [|exact Hs].
      eapply Forall_impl; [|exact Hall]. simpl. intros; lia. }
    destruct (Qltb (get x (i - 1)) (get x i)); [|exact Hnext].
    set (i_ahead := plateau_end x i_max (get x i) (S i) (i_max - i)).
    pose proof (plateau_end_ge x i_max (get x i) (i_max - i) (S i)) as Hge.
    fold i_ahead in Hge.
    destruct (Qltb (get x i_ahead) (get x i)); [|exact Hnext].
    destruct (IH (S i_ahead)) as [Hall Hs].
    assert (Hlo : (i <= (i + (i_ahead - 1)) / 2)%nat)
      by (apply Nat.div_le_lower_bound; lia).
    assert (Hhi : ((i + (i_ahead - 1)) / 2 < S i_ahead)%nat)
      by (apply Nat.Div0.div_lt_upper_bound; lia).
    split.
    + constructor; [exact Hlo|].
      eapply Forall_impl; [|exact Hall]. cbv beta. intros; lia.
    + constructor; [exact Hs|].
      eapply Forall_impl; [|exact Hall]. cbv beta. intros a Ha.
      apply Nat.lt_le_trans with (S i_ahead); [exact Hhi|exact Ha].
Qed.

Lemma local_maxima_1d_sorted (x : list Q) :
  StronglySorted lt (local_maxima_1d x).
Proof. apply local_maxima_loop_sorted. Qed.

Lemma mask_Forall {A : Type} (P : A -> Prop) (a : list A) :
  Forall P a -> forall keep, Forall P (mask keep a).
Proof.
  induction 1 as [|v a Hv _ IH]; intros [|[|] keep]; simpl;
    try constructor; auto.
Qed.

(** Selecting with a mask keeps the order of what is selected. *)
Lemma mask_sorted {A : Type} (R : A -> A -> Prop) (a : list A) :
  StronglySorted R a -> forall keep, StronglySorted R (mask keep a).
Proof.
  induction 1 as [|v a _ IH Hv]; intros [|[|] keep]; simpl;
    try constructor; auto using mask_Forall.
Qed.

Lemma find_peaks_outcome (x : list Q) (prominence width distance : Q) :
  (distance < 1 ->
   find_peaks x prominence width distance = Raise ValueError) /\
  (~ distance < 1 ->
   exists r, find_peaks x prominence width distance = Ok r).
Proof.
  unfold find_peaks. destruct (Qltb distance 1) eqn:E; Qtests; split; intro H.
  - reflexivity.
  - contradiction.
  - lra.
  - eauto.
Qed.

Lemma find_peaks_sorted (x : list Q) (prominence width distance : Q)
  (peaks : list nat) (widths : list Q) :
  find_peaks x prominence width distance = Ok (peaks, widths) ->
  StronglySorted lt peaks.
Proof.
  unfold find_peaks. destruct (Qltb distance 1); [discriminate|].
  intro H. injection H as <- _.
  repeat apply mask_sorted. apply local_maxima_1d_sorted.
Qed.

End ScipyFacts.

(** C9. The positions returned by the detector are strictly increasing, for
    every signal and thresholds; and the report returned by
    [generate_report] has one line per detected peak, in the order of the
    detector's positions. *)
Theorem peaks_in_index_order :
  (forall x prominence width distance peaks widths,
     Scipy.find_peaks x prominence width distance = Ok (peaks, widths) ->
     strictly_increasing peaks) /\
  (forall f n prominence width broad_width distance drawn report,
     generate_report Scipy.find_peaks f n prominence width broad_width distance
     = Ok (drawn, report) ->
     exists x y peaks widths pks,
       process_file f true = Ok (x, y) /\
       Scipy.find_peaks (map (fun t => 100 - t) y) prominence width distance
       = Ok (peaks, widths) /\
       strictly_increasing peaks /\
       ms_report Scipy.find_peaks x y prominence width distance broad_width " "
       = Ok pks /\
       map fst pks = peaks /\
       report = map (line_of x) pks).
Proof.
  split.
  - intros x p w d peaks widths H. exact (ScipyFacts.find_peaks_sorted _ _ _ _ _ _ H).
  - intros f n p w b d drawn report H.
    apply generate_report_inv in H.
    destruct H as [x [y [pks [Hpf [Hms [_ [_ ->]]]]]]].
    destruct (ms_report_inv _ _ _ _ _ _ _ _ _ Hms) as [peaks [widths [Hfp [Hfst _]]]].
    exists x, y, peaks, widths, pks.
    repeat (split; [assumption || reflexivity || idtac|]); try reflexivity.
    exact (ScipyFacts.find_peaks_sorted _ _ _ _ _ _ Hfp).
Qed.

Lemma peaks_in_index_order_witness :
  strictly_increasing [1%nat; 5%nat] /\
  exists x y peaks widths pks,
    process_file spectrum_1715 true = Ok (x, y) /\
    Scipy.find_peaks (map (fun t => 100 - t) y) 5 4 30 = Ok (peaks, widths) /\
    strictly_increasing peaks /\
    ms_report Scipy.find_peaks x y 5 4 30 100 " " = Ok pks /\
    map fst pks = peaks /\
    ["1715 (s)"%string] = map (line_of x) pks.
Proof.
  split.
  - eapply (proj1 peaks_in_index_order [0; 5; 0; 0; 0; 4; 0] 0 0 3
                  [1%nat; 5%nat] _).
    vm_compute. reflexivity.
  - eapply (proj2 peaks_in_index_order spectrum_1715 1%Z 5 4 100 30
                  _ ["1715 (s)"%string]).
    vm_compute. reflexivity.
Defined.

(** C6, as stated, fails: with a negative minimum prominence and a negative
    minimum width the file is processed and its peak reported. *)
Lemma negative_thresholds_accepted :
  peak_min_prominence negative_arguments < 0 /\
  peak_min_width negative_arguments < 0 /\
  main_file Scipy.find_peaks negative_arguments spectrum_1715
  = ([">>> /data/ketone.csv"; "IR (ATR): 1715 (s)."]%string, Ok tt).
Proof. repeat split; vm_compute; reflexivity. Qed.

(** C6, as amended. The thresholds are examined by the detector alone: it
    raises [ValueError] when the minimum distance is below 1 and returns its
    peaks otherwise, whatever the signs of the minimum prominence and width;
    and in [main] that failure comes after the header line of the file is
    printed, once the file is read and normalised.  For any detector, the
    header line of a file is printed before the detector is called. *)
Theorem thresholds_checked_by_detector :
  (forall x prominence width distance,
     distance < 1 ->
     Scipy.find_peaks x prominence width distance = Raise ValueError) /\
  (forall x prominence width distance,
     ~ distance < 1 ->
     exists r, Scipy.find_peaks x prominence width distance = Ok r) /\
  (forall parsed f xy,
     peak_min_distance parsed < 1 ->
     process_file f true = Ok xy ->
     main_file Scipy.find_peaks parsed f
     = ([(">>> " ++ abspath f)%string], Raise ValueError)) /\
  (forall (find_peaks : detector) parsed f,
     exists rest,
       fst (main_file find_peaks parsed f)
       = (">>> " ++ abspath f)%string :: rest).
Proof.
  split; [|split; [|split]].
  - intros x p w d H. apply ScipyFacts.find_peaks_outcome. exact H.
  - intros x p w d H. apply ScipyFacts.find_peaks_outcome. exact H.
  - intros parsed f [x y] Hd Hpf.
    apply main_file_of_raise.
    rewrite (returned_report_finite _ _ _ _ Hpf).
    unfold generate_report. rewrite Hpf. simpl.
    unfold ms_report.
    rewrite (proj1 (ScipyFacts.find_peaks_outcome _ _ _ _) Hd). reflexivity.
  - intros fp parsed f. apply main_file_header_first.
Qed.

Lemma thresholds_checked_by_detector_witness :
  Scipy.find_peaks [0; 5; 0] (-5) (-4) 0 = Raise ValueError /\
  (exists r, Scipy.find_peaks [0; 5; 0] (-5) (-4) 1 = Ok r) /\
  main_file Scipy.find_peaks negative_distance_arguments spectrum_1715
  = ([">>> /data/ketone.csv"%string], Raise ValueError).
Proof.
  split; [|split].
  - apply (proj1 thresholds_checked_by_detector). reflexivity.
  - apply (proj1 (proj2 thresholds_checked_by_detector)).
    intro H. discriminate H.
  - apply (proj1 (proj2 (proj2 thresholds_checked_by_detector))
             negative_distance_arguments spectrum_1715
             (col_cm1 spectrum_1715, normalized (col_T spectrum_1715) 40)).
    + reflexivity.
    + reflexivity.
Defined.

(** ** Further checks *)

(** A spectrum without a dip: no peak, and the summary line is empty. *)
Example main_file_no_peak :
  main_file Scipy.find_peaks default_arguments
            {| name := "ramp.csv";
               abspath := "/data/ramp.csv";
               col_cm1 := [1002; 1001; 1000];
               col_T := [100; 50; 0] |}
  = ([">>> /data/ramp.csv"; "IR (ATR): ."]%string, Ok tt).
Proof. vm_compute. reflexivity. Qed.

(** The two dips of the end-to-end scenario, on short arrays: a strong
    narrow one, then a weak one that is broad for a threshold of 1. *)
Example ms_report_two_dips :
  ms_report Scipy.find_peaks
            [7; 6; 5; 4; 3; 2; 1]
            [100; 20; 100; 100; 80; 80; 100] 2 (1 # 2) 1 1 " "
  = Ok [(1%nat, "(s)"%string); (4%nat, "(w br)"%string)].
Proof. vm_compute. reflexivity. Qed.

Example format_0f_wavenumber : format_0f (17149 # 10) = "1715"%string.
Proof. reflexivity. Qed.

Example format_0f_tie : format_0f (5 # 2) = "2"%string.
Proof. reflexivity. Qed.

Example format_0f_negative : format_0f (- (2 # 5)) = "-0"%string.
Proof. reflexivity. Qed.

(** [round_half_even] gives a nearest integer. *)
Lemma round_half_even_nearest (q : Q) :
  Qabs (q - inject_Z (round_half_even q)) <= 1 # 2.
Proof.
  unfold round_half_even.
  pose proof (Qfloor_le q) as Hlo. pose proof (Qlt_floor q) as Hhi.
  rewrite inject_Z_plus in Hhi. change (inject_Z 1) with 1 in Hhi.
  apply Qabs_Qle_condition.
  destruct (Qltb (q - inject_Z (Qfloor q)) (1 # 2)) eqn:E1; Qtests.
  - split; lra.
  - destruct (Qltb (1 # 2) (q - inject_Z (Qfloor q))) eqn:E2; Qtests.
    + rewrite inject_Z_plus. change (inject_Z 1) with 1. split; lra.
    + destruct (Z.even (Qfloor q)).
      * split; lra.
      * rewrite inject_Z_plus. change (inject_Z 1) with 1. split; lra.
Qed.

(** * Further properties *)

(** ** The detector's answer in closed form *)

Module DetectorFacts.
Import Scipy.

Lemma mask_map {A B : Type} (g : A -> B) (a : list A) :
  forall keep, mask keep (map g a) = map g (mask keep a).
Proof.
  induction a as [|v a IH]; intros [|[|] keep]; simpl; try reflexivity.
  - rewrite IH. reflexivity.
  - apply IH.
Qed.

Lemma mask_test {A : Type} (test : A -> bool) (a : list A) :
  mask (map test a) a = filter test a.
Proof.
  induction a as [|v a IH]; simpl; [reflexivity|].
  destruct (test v); rewrite IH; reflexivity.
Qed.

Lemma map_combine_map {A B C : Type} (g : A -> B) (h : A -> B -> C)
  (a : list A) :
  map (fun '(p, pd) => h p pd) (combine a (map g a))
  = map (fun p => h p (g p)) a.
Proof. induction a as [|v a IH]; simpl; [|rewrite IH]; reflexivity. Qed.

(** What [find_peaks] returns when it returns. *)
Lemma find_peaks_closed_form (x : list Q) (prominence width distance : Q) :
  ~ distance < 1 ->
  find_peaks x prominence width distance
  = Ok (accepted x prominence width distance,
        map (width_of x) (accepted x prominence width distance)).
Proof.
  intro Hd. unfold find_peaks.
  destruct (Qltb distance 1) eqn:E; Qtests; [contradiction|].
  fold (distance_selected x distance).
  set (sel := distance_selected x distance).
  unfold at_least.
  assert (E1 : map (fun v => Qleb prominence v)
                   (map prom (map (peak_prominence x) sel))
               = map (fun p => Qleb prominence (prominence_of x p)) sel)
    by (rewrite !map_map; reflexivity).
  rewrite E1, mask_test, mask_map, mask_test.
  set (sel2 := filter (fun p => Qleb prominence (prominence_of x p)) sel).
  rewrite (map_combine_map (peak_prominence x) (peak_width x)).
  assert (E2 : map (fun v => Qleb width v)
                   (map (fun p => peak_width x p (peak_prominence x p)) sel2)
               = map (fun p => Qleb width (width_of x p)) sel2)
    by (rewrite map_map; reflexivity).
  rewrite E2, mask_test, mask_map, mask_test.
  reflexivity.
Qed.

Lemma plateau_end_le (x : list Q) (i_max : nat) (xi : Q) :
  forall fuel i, (i <= i_max)%nat ->
                 (plateau_end x i_max xi i fuel <= i_max)%nat.
Proof.
  induction fuel as [|fuel IH]; intros i Hi; simpl; [exact Hi|].
  destruct (i <? i_max)%nat eqn:E; simpl; [|exact Hi].
  apply Nat.ltb_lt in E.
  destruct (Qeqb (get x i) xi); [|exact Hi]. apply IH. lia.
Qed.

Lemma local_maxima_loop_bounds (x : list Q) (i_max : nat) :
  forall fuel i,
    Forall (fun m => (i <= m < i_max)%nat) (local_maxima_loop x i_max i fuel).
Proof.
  induction fuel as [|fuel IH]; intro i; [constructor|].
  cbn [local_maxima_loop].
  destruct (i <? i_max)%nat eqn:E; [|constructor].
  apply Nat.ltb_lt in E.
  assert (Hnext : Forall (fun m => (i <= m < i_max)%nat)
                         (local_maxima_loop x i_max (S i) fuel)).
  { eapply Forall_impl; [|apply IH]. cbv beta. intros; lia. }
  destruct (Qltb (get x (i - 1)) (get x i)); [|exact Hnext].
  set (i_ahead := plateau_end x i_max (get x i) (S i) (i_max - i)).
  assert (Hge : (S i <= i_ahead)%nat) by apply ScipyFacts.plateau_end_ge.
  assert (Hle : (i_ahead <= i_max)%nat) by (apply plateau_end_le; lia).
  destruct (Qltb (get x i_ahead) (get x i)); [|exact Hnext].
  constructor.
  - split.
    + apply Nat.div_le_lower_bound; lia.
    + apply Nat.Div0.div_lt_upper_bound; lia.
  - eapply Forall_impl; [|apply IH]. cbv beta. intros; lia.
Qed.

(** The first and the last sample are never reported. *)
Lemma local_maxima_1d_interior (x : list Q) :
  Forall (fun m => (1 <= m < List.length x - 1)%nat) (local_maxima_1d x).
Proof. apply local_maxima_loop_bounds. Qed.

Lemma filter_Forall {A : Type} (P : A -> Prop) (test : A -> bool) (a : list A) :
  Forall P a -> Forall P (filter test a).
Proof.
  intro H. rewrite Forall_forall in *. intros v Hv.
  apply filter_In in Hv. apply H. tauto.
Qed.

Lemma accepted_interior (x : list Q) (prominence width distance : Q) :
  Forall (fun m => (1 <= m < List.length x - 1)%nat)
         (accepted x prominence width distance).
Proof.
  unfold accepted, distance_selected.
  repeat apply filter_Forall. apply ScipyFacts.mask_Forall.
  apply local_maxima_1d_interior.
Qed.

End DetectorFacts.

(** ** [ms_report] on SciPy's detector *)

Lemma for_each_enumerate (ir_t : list Q) (br_w : Q) (g : nat -> Q)
  (widths : list Q) :
  forall (l : list nat) (k : nat),
    (forall j q, nth_error l j = Some q ->
                 nth_error widths (k + j) = Some (g q)) ->
    for_each
      (fun '(i, p) =>
         (trel <- index ir_t p ;;
          w <- index widths i ;;
          de <- desc trel w br_w " " ;;
          Ok (p, de))%outcome)
      (enumerate_from k l)
    = for_each (fun q => describe_peak ir_t br_w (g q) q) l.
Proof.
  induction l as [|q l IH]; intros k H; simpl; [reflexivity|].
  rewrite (IH (S k)).
  - assert (Hw : index widths k = Ok (g q)).
    { unfold index. rewrite <- (Nat.add_0_r k).
      rewrite (H 0%nat q eq_refl). reflexivity. }
    rewrite Hw. unfold describe_peak.
    destruct (index ir_t q); reflexivity.
  - intros j q' Hj. replace (S k + j)%nat with (k + S j)%nat by lia.
    apply H. exact Hj.
Qed.

Lemma ms_report_closed_form (ir_w ir_t : list Q)
  (prominence width distance br_w : Q) (sep : string) :
  ~ distance < 1 ->
  ms_report Scipy.find_peaks ir_w ir_t prominence width distance br_w sep
  = for_each
      (fun q => describe_peak ir_t br_w
                  (width_of (map (fun t => 100 - t) ir_t) q) q)
      (accepted (map (fun t => 100 - t) ir_t) prominence width distance).
Proof.
  intro Hd. unfold ms_report.
  rewrite (DetectorFacts.find_peaks_closed_form _ _ _ _ Hd). simpl bind.
  unfold enumerate. apply for_each_enumerate.
  intros j q Hj. simpl. apply map_nth_error. exact Hj.
Qed.

Lemma accepted_in_range (ir_t : list Q) (prominence width distance : Q) :
  Forall (fun q => (q < List.length ir_t)%nat)
         (accepted (map (fun t => 100 - t) ir_t) prominence width distance).
Proof.
  eapply Forall_impl; [|apply DetectorFacts.accepted_interior].
  cbv beta. intro q. rewrite length_map. lia.
Qed.

Lemma describe_peak_in_range (ir_t : list Q) (br_w w : Q) (q : nat) :
  (q < List.length ir_t)%nat ->
  describe_peak ir_t br_w w q
  = (de <- desc (nth q ir_t 0) w br_w " " ;; Ok (q, de))%outcome.
Proof.
  intro H. unfold describe_peak. rewrite (index_in_range ir_t q 0 H).
  reflexivity.
Qed.

Lemma desc_returns_iff_classified (t w br_w : Q) (sep : string) :
  (exists d, desc t w br_w sep = Ok d) <-> classified t.
Proof.
  unfold classified. split.
  - intros [d Hd].
    assert (Hn : ~ (t < 0 \/ 100 < t \/ t == 66)).
    { intro H. apply (desc_raises_iff t w br_w sep) in H. congruence. }
    repeat split.
    + destruct (Qlt_le_dec t 0); [exfalso; apply Hn; auto|assumption].
    + destruct (Qlt_le_dec 100 t); [exfalso; apply Hn; auto|assumption].
    + intro H. apply Hn. auto.
  - intros [H0 [H100 H66]].
    destruct (desc_total t w br_w sep) as [H|H]; [exact H|].
    apply desc_raises_iff in H. destruct H as [H|[H|H]]; [lra|lra|contradiction].
Qed.

(** A loop whose body either returns or raises [e] returns when the body
    returns everywhere, and raises [e] otherwise. *)
Lemma for_each_cases {A B : Type} (body : A -> outcome B) (e : exn)
  (l : list A) :
  Forall (fun a => (exists b, body a = Ok b) \/ body a = Raise e) l ->
  (exists bs, for_each body l = Ok bs) \/
  (for_each body l = Raise e /\ Exists (fun a => body a = Raise e) l).
Proof.
  induction 1 as [|a l Ha _ IH]; simpl; [left; eauto|].
  destruct Ha as [[b Hb]|Hb]; rewrite Hb; simpl.
  - destruct IH as [[bs Hbs]|[Hr Hex]]; rewrite ?Hbs, ?Hr; simpl.
    + left. eauto.
    + right. split; [reflexivity|]. apply Exists_cons_tl. exact Hex.
  - right. split; [reflexivity|]. apply Exists_cons_hd. exact Hb.
Qed.

Lemma for_each_all_ok {A B : Type} (body : A -> outcome B) (l : list A) :
  (exists bs, for_each body l = Ok bs) <->
  Forall (fun a => exists b, body a = Ok b) l.
Proof.
  split.
  - intros [bs H]. apply for_each_Ok in H.
    induction H; constructor; eauto.
  - induction 1 as [|a l [b Hb] _ [bs IH]]; simpl; [eauto|].
    rewrite Hb. simpl. rewrite IH. simpl. eauto.
Qed.

Lemma ms_report_distance_ok (ir_w ir_t : list Q)
  (prominence width distance br_w : Q) (sep : string)
  (pks : list (nat * string)) :
  ms_report Scipy.find_peaks ir_w ir_t prominence width distance br_w sep
  = Ok pks ->
  ~ distance < 1.
Proof.
  intros H Hd. unfold ms_report in H.
  rewrite (proj1 (ScipyFacts.find_peaks_outcome _ _ _ _) Hd) in H.
  discriminate H.
Qed.

Lemma ms_report_scipy_inv (ir_w ir_t : list Q)
  (prominence width distance br_w : Q) (sep : string)
  (pks : list (nat * string)) :
  ms_report Scipy.find_peaks ir_w ir_t prominence width distance br_w sep
  = Ok pks ->
  Forall2 (fun q pk =>
             fst pk = q /\
             desc (nth q ir_t 0) (width_of (map (fun t => 100 - t) ir_t) q)
                  br_w " " = Ok (snd pk))
          (accepted (map (fun t => 100 - t) ir_t) prominence width distance)
          pks.
Proof.
  intro H. pose proof (ms_report_distance_ok _ _ _ _ _ _ _ _ H) as Hd.
  rewrite (ms_report_closed_form _ _ _ _ _ _ _ Hd) in H.
  apply for_each_Ok in H.
  pose proof (accepted_in_range ir_t prominence width distance) as Hr.
  induction H as [|q pk l bs Hq _ IH]; constructor.
  - inversion Hr; subst.
    rewrite describe_peak_in_range in Hq by assumption.
    apply bind_Ok in Hq. destruct Hq as [de [Hde Hq]].
    injection Hq as <-. simpl. auto.
  - apply IH. inversion Hr; assumption.
Qed.

(** X1. What each entry of [ms_report] stands for, with SciPy's detector:
    an inner position of the spectrum (never the first or the last sample),
    whose prominence and width in the inverted signal reach the two
    thresholds, with the classification of the transmittance at that
    position and of that width. *)
Theorem ms_report_entries (ir_w ir_t : list Q)
  (prominence width distance br_w : Q) (sep : string)
  (pks : list (nat * string)) :
  ms_report Scipy.find_peaks ir_w ir_t prominence width distance br_w sep
  = Ok pks ->
  Forall (fun pk =>
            (1 <= fst pk < List.length ir_t - 1)%nat /\
            prominence <= prominence_of (map (fun t => 100 - t) ir_t) (fst pk) /\
            width <= width_of (map (fun t => 100 - t) ir_t) (fst pk) /\
            desc (nth (fst pk) ir_t 0)
                 (width_of (map (fun t => 100 - t) ir_t) (fst pk)) br_w " "
            = Ok (snd pk)) pks.
Proof.
  intro H. apply ms_report_scipy_inv in H.
  pose proof (DetectorFacts.accepted_interior
                (map (fun t => 100 - t) ir_t) prominence width distance) as Hi.
  assert (Hacc : Forall (fun q =>
            prominence <= prominence_of (map (fun t => 100 - t) ir_t) q /\
            width <= width_of (map (fun t => 100 - t) ir_t) q)
          (accepted (map (fun t => 100 - t) ir_t) prominence width distance)).
  { apply Forall_forall. intros q Hq. unfold accepted in Hq.
    apply filter_In in Hq. destruct Hq as [Hq Hw].
    apply filter_In in Hq. destruct Hq as [_ Hp]. Qtests. auto. }
  induction H as [|q pk l bs [<- Hd] _ IH]; constructor.
  - inversion Hi as [|? ? Hq _]; inversion Hacc as [|? ? [Hp Hw] _]; subst.
    rewrite length_map in Hq. auto.
  - apply IH; [inversion Hi|inversion Hacc]; assumption.
Qed.

Lemma ms_report_entries_witness :
  Forall (fun pk =>
            (1 <= fst pk < 9 - 1)%nat /\
            5 <= prominence_of
                   (map (fun t => 100 - t) [100; 75; 50; 25; 0; 25; 50; 75; 100])
                   (fst pk) /\
            4 <= width_of
                   (map (fun t => 100 - t) [100; 75; 50; 25; 0; 25; 50; 75; 100])
                   (fst pk) /\
            desc (nth (fst pk) [100; 75; 50; 25; 0; 25; 50; 75; 100] 0)
                 (width_of
                    (map (fun t => 100 - t) [100; 75; 50; 25; 0; 25; 50; 75; 100])
                    (fst pk)) 3 " "
            = Ok (snd pk)) [(4%nat, "(s br)"%string)].
Proof.
  apply (ms_report_entries (col_cm1 spectrum_1715)
           [100; 75; 50; 25; 0; 25; 50; 75; 100] 5 4 30 3 "-").
  vm_compute. reflexivity.
Defined.

Lemma ms_report_below_distance (ir_w ir_t : list Q)
  (prominence width distance br_w : Q) (sep : string) :
  distance < 1 ->
  ms_report Scipy.find_peaks ir_w ir_t prominence width distance br_w sep
  = Raise ValueError.
Proof.
  intro Hd. unfold ms_report.
  rewrite (proj1 (ScipyFacts.find_peaks_outcome _ _ _ _) Hd). reflexivity.
Qed.

Lemma ms_report_cases (ir_w ir_t : list Q)
  (prominence width distance br_w : Q) (sep : string) :
  ~ distance < 1 ->
  ((exists pks,
      ms_report Scipy.find_peaks ir_w ir_t prominence width distance br_w sep
      = Ok pks) <->
   Forall (fun q => classified (nth q ir_t 0))
          (accepted (map (fun t => 100 - t) ir_t) prominence width distance)) /\
  ((exists pks,
      ms_report Scipy.find_peaks ir_w ir_t prominence width distance br_w sep
      = Ok pks) \/
   ms_report Scipy.find_peaks ir_w ir_t prominence width distance br_w sep
   = Raise ValueError).
Proof.
  intro Hd. rewrite (ms_report_closed_form _ _ _ _ _ _ _ Hd).
  pose proof (accepted_in_range ir_t prominence width distance) as Hr.
  set (x := map (fun t => 100 - t) ir_t) in *.
  set (l := accepted x prominence width distance) in *.
  assert (Hbody : forall q, (q < List.length ir_t)%nat ->
            ((exists b, describe_peak ir_t br_w (width_of x q) q = Ok b) <->
             classified (nth q ir_t 0)) /\
            ((exists b, describe_peak ir_t br_w (width_of x q) q = Ok b) \/
             describe_peak ir_t br_w (width_of x q) q = Raise ValueError)).
  { intros q Hq. rewrite describe_peak_in_range by exact Hq.
    rewrite <- (desc_returns_iff_classified _ (width_of x q) br_w " ").
    destruct (desc_total (nth q ir_t 0) (width_of x q) br_w " ") as [[d Hd']|Hd'];
      rewrite Hd'; simpl.
    - split; [split; intros _; eauto|left; eauto].
    - split; [split; intros [? ?]; discriminate|right; reflexivity]. }
  split.
  + rewrite for_each_all_ok. rewrite !Forall_forall.
    rewrite Forall_forall in Hr.
    split; intros H q Hq; apply (Hbody q (Hr q Hq)); auto.
  + destruct (for_each_cases
                (fun q => describe_peak ir_t br_w (width_of x q) q)
                ValueError l) as [H|[H _]]; auto.
    rewrite Forall_forall in *. intros q Hq. apply (Hbody q (Hr q Hq)).
Qed.

(** X2. With SciPy's detector [ms_report] ends in one of two ways: it
    returns, or it raises [ValueError]; indexing never fails.  It raises for
    a minimum distance below 1, and otherwise returns exactly when the
    transmittance at every accepted position can be classified (lies
    in 0..100 and is not 66). *)
Theorem ms_report_outcome (ir_w ir_t : list Q)
  (prominence width distance br_w : Q) (sep : string) :
  (distance < 1 ->
   ms_report Scipy.find_peaks ir_w ir_t prominence width distance br_w sep
   = Raise ValueError) /\
  (~ distance < 1 ->
   ((exists pks,
       ms_report Scipy.find_peaks ir_w ir_t prominence width distance br_w sep
       = Ok pks) <->
    Forall (fun q => classified (nth q ir_t 0))
           (accepted (map (fun t => 100 - t) ir_t) prominence width distance)) /\
   ((exists pks,
       ms_report Scipy.find_peaks ir_w ir_t prominence width distance br_w sep
       = Ok pks) \/
    ms_report Scipy.find_peaks ir_w ir_t prominence width distance br_w sep
    = Raise ValueError)).
Proof.
  split.
  - apply ms_report_below_distance.
  - apply ms_report_cases.
Qed.

Lemma ms_report_outcome_witness :
  ms_report Scipy.find_peaks [3; 2; 1] [100; 66; 100] 5 (1 # 2) 0 100 " "
  = Raise ValueError /\
  ((exists pks,
      ms_report Scipy.find_peaks [3; 2; 1] [100; 66; 100] 5 (1 # 2) 1 100 " "
      = Ok pks) \/
   ms_report Scipy.find_peaks [3; 2; 1] [100; 66; 100] 5 (1 # 2) 1 100 " "
   = Raise ValueError).
Proof.
  split.
  - apply (proj1 (ms_report_outcome [3; 2; 1] [100; 66; 100] 5 (1 # 2) 0 100 " ")).
    reflexivity.
  - apply (proj2 (ms_report_outcome [3; 2; 1] [100; 66; 100] 5 (1 # 2) 1 100 " ")).
    intro H. discriminate H.
Defined.

(** X3. A spectrum of fewer than three samples has no peak: [ms_report]
    returns the empty list, whatever the thresholds (minimum distance
    at least 1). *)
Theorem ms_report_short_spectrum (ir_w ir_t : list Q)
  (prominence width distance br_w : Q) (sep : string) :
  (List.length ir_t <= 2)%nat ->
  ~ distance < 1 ->
  ms_report Scipy.find_peaks ir_w ir_t prominence width distance br_w sep
  = Ok [].
Proof.
  intros Hlen Hd. rewrite (ms_report_closed_form _ _ _ _ _ _ _ Hd).
  pose proof (DetectorFacts.accepted_interior
                (map (fun t => 100 - t) ir_t) prominence width distance) as Hi.
  destruct (accepted _ prominence width distance) as [|q l]; [reflexivity|].
  inversion Hi as [|? ? Hq _]; subst. rewrite length_map in Hq. lia.
Qed.

Lemma ms_report_short_spectrum_witness :
  ms_report Scipy.find_peaks [2; 1] [100; 0] 0 0 1 100 " " = Ok [].
Proof.
  apply ms_report_short_spectrum.
  - simpl. lia.
  - intro H. discriminate H.
Defined.

(** ** Prominence and width are never negative *)

Module MeasureFacts.
Import Scipy.

Lemma left_base_le (x : list Q) (xp : Q) :
  forall i left_min b, fst (left_base x xp i left_min b) <= left_min.
Proof.
  induction i as [|i IH]; intros left_min b; simpl.
  - destruct (Qleb (get x 0) xp); [|apply Qle_refl].
    destruct (Qltb (get x 0) left_min) eqn:E; simpl; Qtests; lra.
  - destruct (Qleb (get x (S i)) xp); [|apply Qle_refl].
    destruct (Qltb (get x (S i)) left_min) eqn:E; Qtests.
    + eapply Qle_trans; [apply IH|]. lra.
    + apply IH.
Qed.

Lemma right_base_le (x : list Q) (xp : Q) :
  forall fuel i right_min b,
    fst (right_base x xp i fuel right_min b) <= right_min.
Proof.
  induction fuel as [|fuel IH]; intros i right_min b; simpl;
    [apply Qle_refl|].
  destruct (Qleb (get x i) xp); [|apply Qle_refl].
  destruct (Qltb (get x i) right_min) eqn:E; Qtests.
  - eapply Qle_trans; [apply IH|]. lra.
  - apply IH.
Qed.

Lemma prominence_nonneg (x : list Q) (p : nat) : 0 <= prominence_of x p.
Proof.
  unfold prominence_of, peak_prominence.
  pose proof (left_base_le x (get x p) p (get x p) p) as Hl.
  pose proof (right_base_le x (get x p) (List.length x - p) p (get x p) p) as Hr.
  destruct (left_base x (get x p) p (get x p) p) as [lm lb].
  destruct (right_base x (get x p) p (List.length x - p) (get x p) p) as [rm rb].
  simpl in *. unfold Qmax. destruct (Qltb lm rm); lra.
Qed.

Lemma left_cross_spec (x : list Q) (height : Q) (i_min : nat) :
  forall i,
    (left_cross x height i_min i <= i)%nat /\
    ((left_cross x height i_min i < i)%nat ->
     height < get x (S (left_cross x height i_min i))).
Proof.
  induction i as [|i [IH1 IH2]]; simpl; [split; lia|].
  destruct ((i_min <? S i)%nat && Qltb height (get x (S i))) eqn:E.
  - Qtests. split; [lia|]. intros _.
    destruct (Nat.eq_dec (left_cross x height i_min i) i) as [Heq|Hne].
    + rewrite Heq. assumption.
    + apply IH2. lia.
  - split; [lia|]. intro H. lia.
Qed.

Lemma right_cross_spec (x : list Q) (height : Q) (i_max : nat) :
  forall fuel i,
    (i <= right_cross x height i_max i fuel)%nat /\
    ((i < right_cross x height i_max i fuel)%nat ->
     height < get x (right_cross x height i_max i fuel - 1)).
Proof.
  induction fuel as [|fuel IH]; intro i; simpl; [split; lia|].
  destruct ((i <? i_max)%nat && Qltb height (get x i)) eqn:E.
  - Qtests. destruct (IH (S i)) as [IH1 IH2]. split; [lia|]. intros _.
    destruct (Nat.eq_dec (right_cross x height i_max (S i) fuel) (S i))
      as [Heq|Hne].
    + rewrite Heq. simpl. rewrite Nat.sub_0_r. assumption.
    + apply IH2. lia.
  - split; [lia|]. intro H. lia.
Qed.

Lemma inject_nat_le (a b : nat) :
  (a <= b)%nat -> inject_Z (Z.of_nat a) <= inject_Z (Z.of_nat b).
Proof. intro H. rewrite <- Zle_Qle. lia. Qed.

Lemma inject_nat_succ (a : nat) :
  inject_Z (Z.of_nat (S a)) == inject_Z (Z.of_nat a) + 1.
Proof. rewrite Nat2Z.inj_succ, <- Z.add_1_r, inject_Z_plus. reflexivity. Qed.

Lemma fraction_below_one (a b : Q) : 0 < a -> a < b -> a / b <= 1.
Proof.
  intros Ha Hab. apply Qle_shift_div_r; [lra|lra].
Qed.

Lemma fraction_nonneg (a b : Q) : 0 < a -> a < b -> 0 <= a / b.
Proof.
  intros Ha Hab. apply Qle_shift_div_l; [lra|lra].
Qed.

Lemma width_nonneg (x : list Q) (p : nat) : 0 <= width_of x p.
Proof.
  unfold width_of, peak_width.
  pose proof (prominence_nonneg x p) as Hprom. unfold prominence_of in Hprom.
  set (pd := peak_prominence x p) in *.
  set (height := get x p - prom pd * (1 # 2)).
  assert (Hh : height <= get x p) by (unfold height; lra).
  destruct (left_cross_spec x height (lbase pd) p) as [Hl1 Hl2].
  destruct (right_cross_spec x height (rbase pd) (List.length x - p) p)
    as [Hr1 Hr2].
  set (il := left_cross x height (lbase pd) p) in *.
  set (ir := right_cross x height (rbase pd) p (List.length x - p)) in *.
  assert (Hleft :
    (if Qltb (get x il) height
     then inject_Z (Z.of_nat il)
          + (height - get x il) / (get x (il + 1) - get x il)
     else inject_Z (Z.of_nat il)) <= inject_Z (Z.of_nat p)).
  { destruct (Qltb (get x il) height) eqn:E; Qtests.
    - assert (Hlt : (il < p)%nat).
      { destruct (Nat.eq_dec il p) as [Heq|Hne]; [|lia].
        rewrite Heq in E. lra. }
      specialize (Hl2 Hlt). rewrite Nat.add_1_r.
      pose proof (fraction_below_one (height - get x il)
                    (get x (S il) - get x il)) as Hf.
      pose proof (inject_nat_le (S il) p Hlt) as Hle.
      rewrite inject_nat_succ in Hle.
      assert (Hf' : (height - get x il) / (get x (S il) - get x il) <= 1)
        by (apply Hf; lra).
      lra.
    - apply inject_nat_le. exact Hl1. }
  assert (Hright :
    inject_Z (Z.of_nat p) <=
    (if Qltb (get x ir) height
     then inject_Z (Z.of_nat ir)
          - (height - get x ir) / (get x (ir - 1) - get x ir)
     else inject_Z (Z.of_nat ir))).
  { destruct (Qltb (get x ir) height) eqn:E; Qtests.
    - assert (Hlt : (p < ir)%nat).
      { destruct (Nat.eq_dec ir p) as [Heq|Hne]; [|lia].
        rewrite Heq in E. lra. }
      specialize (Hr2 Hlt).
      pose proof (fraction_below_one (height - get x ir)
                    (get x (ir - 1) - get x ir)) as Hf.
      assert (Hf' : (height - get x ir) / (get x (ir - 1) - get x ir) <= 1)
        by (apply Hf; lra).
      assert (Hle : inject_Z (Z.of_nat p) + 1 <= inject_Z (Z.of_nat ir)).
      { rewrite <- inject_nat_succ. apply inject_nat_le. lia. }
      lra.
    - apply inject_nat_le. exact Hr1. }
  lra.
Qed.

End MeasureFacts.

(** ** Thresholds *)

Lemma filter_filter {A : Type} (f g : A -> bool) (l : list A) :
  filter f (filter g l) = filter (fun a => g a && f a) l.
Proof.
  induction l as [|a l IH]; simpl; [reflexivity|].
  destruct (g a); simpl; [destruct (f a)|]; rewrite IH; reflexivity.
Qed.

Lemma accepted_as_filter (x : list Q) (prominence width distance : Q) :
  accepted x prominence width distance
  = filter (fun p => Qleb prominence (prominence_of x p)
                     && Qleb width (width_of x p))
           (distance_selected x distance).
Proof. unfold accepted. apply filter_filter. Qed.

Lemma Qleb_true (a b : Q) : a <= b -> Qleb a b = true.
Proof. apply Qleb_spec. Qed.

Lemma accepted_negative_thresholds (x : list Q) (prominence width distance : Q) :
  prominence <= 0 -> width <= 0 ->
  accepted x prominence width distance = accepted x 0 0 distance.
Proof.
  intros Hp Hw. rewrite !accepted_as_filter. apply filter_ext. intro p.
  pose proof (MeasureFacts.prominence_nonneg x p).
  pose proof (MeasureFacts.width_nonneg x p).
  rewrite !Qleb_true by lra. reflexivity.
Qed.

Lemma find_peaks_negative_thresholds (x : list Q)
  (prominence width distance : Q) :
  prominence <= 0 -> width <= 0 ->
  Scipy.find_peaks x prominence width distance
  = Scipy.find_peaks x 0 0 distance.
Proof.
  intros Hp Hw. destruct (Qlt_le_dec distance 1) as [Hd|Hd].
  - rewrite !(proj1 (ScipyFacts.find_peaks_outcome _ _ _ _) Hd). reflexivity.
  - assert (Hd' : ~ distance < 1) by lra.
    rewrite !(DetectorFacts.find_peaks_closed_form _ _ _ _ Hd').
    rewrite (accepted_negative_thresholds _ _ _ _ Hp Hw). reflexivity.
Qed.

Lemma generate_report_negative_thresholds (f : csv_file) (n : Z)
  (prominence width broad_width distance : Q) :
  prominence <= 0 -> width <= 0 ->
  generate_report Scipy.find_peaks f n prominence width broad_width distance
  = generate_report Scipy.find_peaks f n 0 0 broad_width distance.
Proof.
  intros Hp Hw. unfold generate_report.
  destruct (process_file f true) as [[x y]| |]; try reflexivity.
  cbn [bind]. unfold ms_report.
  rewrite (find_peaks_negative_thresholds _ _ _ _ Hp Hw). reflexivity.
Qed.

(** X4. A minimum prominence and a minimum width that are negative or zero
    filter nothing: the run of [main] on a file is the run with both set
    to 0 (the prominence and the width of a peak are never negative). *)
Theorem negative_thresholds_as_zero (parsed : arguments) (f : csv_file) :
  peak_min_prominence parsed <= 0 ->
  peak_min_width parsed <= 0 ->
  main_file Scipy.find_peaks parsed f
  = main_file Scipy.find_peaks
      {| peak_min_prominence := 0;
         peak_min_width := 0;
         broad_peak_min_width := broad_peak_min_width parsed;
         peak_min_distance := peak_min_distance parsed;
         raw := raw parsed;
         plot_format := plot_format parsed |} f.
Proof.
  intros Hp Hw. unfold main_file, returned_report.
  cbn [peak_min_prominence peak_min_width broad_peak_min_width
       peak_min_distance raw plot_format].
  destruct (process_file f true) as [[x y]|e|]; [| reflexivity |].
  - rewrite (generate_report_negative_thresholds f _ _ _ _ _ Hp Hw).
    reflexivity.
  - unfold generate_report_not_finite, ms_report_not_finite.
    rewrite (find_peaks_negative_thresholds _ _ _ _ Hp Hw). reflexivity.
Qed.

Lemma negative_thresholds_as_zero_witness :
  main_file Scipy.find_peaks negative_arguments spectrum_1715
  = main_file Scipy.find_peaks
      {| peak_min_prominence := 0;
         peak_min_width := 0;
         broad_peak_min_width := 100;
         peak_min_distance := 30;
         raw := false;
         plot_format := default_plot_format |} spectrum_1715.
Proof.
  apply (negative_thresholds_as_zero negative_arguments spectrum_1715).
  - vm_compute. discriminate.
  - vm_compute. discriminate.
Defined.

Lemma for_each_filter {A B : Type} (body : A -> outcome B) (proj : B -> A)
  (test : A -> bool) :
  (forall a b, body a = Ok b -> proj b = a) ->
  forall l bs,
    for_each body l = Ok bs ->
    for_each body (filter test l) = Ok (filter (fun b => test (proj b)) bs).
Proof.
  intros Hproj l bs H. apply for_each_Ok in H.
  induction H as [|a b l bs Hab _ IH]; simpl; [reflexivity|].
  rewrite (Hproj a b Hab).
  destruct (test a); simpl; [rewrite Hab; simpl; rewrite IH|]; auto.
Qed.

(** X5. Raising the minimum prominence and the minimum width only removes
    entries: the report at the higher thresholds is the report at the lower
    ones without the peaks that miss a higher threshold, in the same order
    and with the same classifications. *)
Theorem ms_report_higher_thresholds (ir_w ir_t : list Q)
  (prominence width prominence' width' distance br_w : Q) (sep : string)
  (pks : list (nat * string)) :
  prominence <= prominence' ->
  width <= width' ->
  ms_report Scipy.find_peaks ir_w ir_t prominence width distance br_w sep
  = Ok pks ->
  ms_report Scipy.find_peaks ir_w ir_t prominence' width' distance br_w sep
  = Ok (filter
          (fun pk =>
             Qleb prominence'
                  (prominence_of (map (fun t => 100 - t) ir_t) (fst pk))
             && Qleb width' (width_of (map (fun t => 100 - t) ir_t) (fst pk)))
          pks).
Proof.
  intros Hp Hw H.
  pose proof (ms_report_distance_ok _ _ _ _ _ _ _ _ H) as Hd.
  rewrite (ms_report_closed_form _ _ _ _ _ _ _ Hd) in H.
  rewrite (ms_report_closed_form _ _ _ _ _ _ _ Hd).
  set (x := map (fun t => 100 - t) ir_t) in *.
  assert (E : accepted x prominence' width' distance
              = filter (fun p => Qleb prominence' (prominence_of x p)
                                 && Qleb width' (width_of x p))
                       (accepted x prominence width distance)).
  { rewrite !accepted_as_filter, filter_filter. apply filter_ext. intro p.
    destruct (Qleb prominence' (prominence_of x p)) eqn:E1;
      destruct (Qleb width' (width_of x p)) eqn:E2;
      rewrite ?andb_false_r; try reflexivity.
    Qtests. rewrite !Qleb_true by lra. reflexivity. }
  rewrite E.
  apply (for_each_filter _ fst
           (fun p => Qleb prominence' (prominence_of x p)
                     && Qleb width' (width_of x p))); [|exact H].
  intros q b Hb. unfold describe_peak in Hb. bind_inv Hb.
  injection Hb as <-. reflexivity.
Qed.

Lemma ms_report_higher_thresholds_witness :
  ms_report Scipy.find_peaks [7; 6; 5; 4; 3; 2; 1]
            [100; 20; 100; 100; 80; 80; 100] 30 (1 # 2) 1 1 " "
  = Ok [(1%nat, "(s)"%string)].
Proof.
  apply (ms_report_higher_thresholds [7; 6; 5; 4; 3; 2; 1]
           [100; 20; 100; 100; 80; 80; 100] 2 (1 # 2) 30 (1 # 2) 1 1 " "
           [(1%nat, "(s)"%string); (4%nat, "(w br)"%string)]).
  - vm_compute. discriminate.
  - vm_compute. discriminate.
  - vm_compute. reflexivity.
Defined.

(** ** Reported positions are local minima of the transmittance *)

Module PlateauFacts.
Import Scipy.

Lemma plateau_end_all_eq (x : list Q) (i_max : nat) (xi : Q) :
  forall fuel i k,
    (i <= k < plateau_end x i_max xi i fuel)%nat -> get x k == xi.
Proof.
  induction fuel as [|fuel IH]; intros i k Hk; simpl in Hk; [lia|].
  destruct ((i <? i_max)%nat && Qeqb (get x i) xi) eqn:E; [|lia].
  Qtests. destruct (Nat.eq_dec k i) as [->|Hne]; [assumption|].
  apply (IH (S i)). lia.
Qed.

Lemma local_maxima_loop_local_max (x : list Q) (i_max : nat) :
  forall fuel i,
    (1 <= i)%nat ->
    Forall (fun m => get x (m - 1) <= get x m /\ get x (m + 1) <= get x m)
           (local_maxima_loop x i_max i fuel).
Proof.
  induction fuel as [|fuel IH]; intros i Hi; [constructor|].
  cbn [local_maxima_loop].
  destruct (i <? i_max)%nat; [|constructor].
  destruct (Qltb (get x (i - 1)) (get x i)) eqn:E1; [|apply IH; lia].
  set (i_ahead := plateau_end x i_max (get x i) (S i) (i_max - i)).
  assert (Hge : (S i <= i_ahead)%nat) by apply ScipyFacts.plateau_end_ge.
  destruct (Qltb (get x i_ahead) (get x i)) eqn:E2; [|apply IH; lia].
  Qtests. constructor; [|apply IH; lia].
  set (m := ((i + (i_ahead - 1)) / 2)%nat).
  assert (Hm : (i <= m <= i_ahead - 1)%nat).
  { unfold m. split.
    - apply Nat.div_le_lower_bound; lia.
    - apply Nat.lt_succ_r. apply Nat.Div0.div_lt_upper_bound. lia. }
  assert (Hplateau : forall k, (i <= k < i_ahead)%nat -> get x k == get x i).
  { intros k Hk. destruct (Nat.eq_dec k i) as [->|Hne]; [reflexivity|].
    apply (plateau_end_all_eq x i_max (get x i) (i_max - i) (S i)).
    fold i_ahead. lia. }
  assert (Em : get x m == get x i) by (apply Hplateau; lia).
  split.
  - destruct (Nat.eq_dec m i) as [Heq|Hne].
    + rewrite Heq. lra.
    + assert (E : get x (m - 1) == get x i) by (apply Hplateau; lia). lra.
  - destruct (Nat.eq_dec (m + 1) i_ahead) as [Heq|Hne].
    + rewrite Heq. lra.
    + assert (E : get x (m + 1) == get x i) by (apply Hplateau; lia). lra.
Qed.

Lemma accepted_local_max (x : list Q) (prominence width distance : Q) :
  Forall (fun m => get x (m - 1) <= get x m /\ get x (m + 1) <= get x m)
         (accepted x prominence width distance).
Proof.
  unfold accepted, distance_selected.
  repeat apply DetectorFacts.filter_Forall. apply ScipyFacts.mask_Forall.
  apply local_maxima_loop_local_max. lia.
Qed.

Lemma get_inverted (ir_t : list Q) (k : nat) :
  (k < List.length ir_t)%nat ->
  get (map (fun t => 100 - t) ir_t) k = 100 - nth k ir_t 0.
Proof.
  intro H. unfold get.
  rewrite (nth_indep _ 0 (100 - 0)) by (rewrite length_map; exact H).
  apply (map_nth (fun t => 100 - t)).
Qed.

End PlateauFacts.

Lemma Forall2_Forall_transfer {A B : Type} (R : A -> B -> Prop)
  (P : A -> Prop) (P' : B -> Prop) (l : list A) (bs : list B) :
  (forall a b, R a b -> P a -> P' b) ->
  Forall2 R l bs -> Forall P l -> Forall P' bs.
Proof.
  intros HR H. induction H as [|a b l bs Hab _ IH]; intro Hl; constructor;
    inversion Hl; subst; eauto.
Qed.



(** ** The distance rule *)

Module DistanceFacts.
Import Scipy.

Lemma nth_clear (keep : list bool) :
  forall j k, nth k (clear j keep) false = negb (k =? j)%nat && nth k keep false.
Proof.
  induction keep as [|b keep IH]; intros j k.
  - destruct j, k; simpl; rewrite ?andb_false_r; reflexivity.
  - destruct j as [|j], k as [|k]; simpl; try reflexivity. apply IH.
Qed.

Lemma sorted_nth (peaks : list nat) :
  StronglySorted lt peaks ->
  forall j k, (j < k < List.length peaks)%nat ->
              (nth j peaks O < nth k peaks O)%nat.
Proof.
  induction 1 as [|a l _ IH Ha]; intros j k Hjk; simpl in Hjk; [lia|].
  destruct k as [|k]; [lia|]. destruct j as [|j]; simpl.
  - rewrite Forall_forall in Ha. apply Ha. apply nth_In. lia.
  - apply IH. lia.
Qed.

Section Selection.

Variable peaks : list nat.
Variable distance_ : Z.
Hypothesis peaks_sorted : StronglySorted lt peaks.

Lemma peak_at_lt (j k : nat) :
  (j < k < List.length peaks)%nat -> (peak_at peaks j < peak_at peaks k)%Z.
Proof.
  intro H. unfold peak_at. apply inj_lt. apply sorted_nth; assumption.
Qed.

Lemma peak_at_le (j k : nat) :
  (j <= k < List.length peaks)%nat -> (peak_at peaks j <= peak_at peaks k)%Z.
Proof.
  intro H. destruct (Nat.eq_dec j k) as [->|Hne]; [lia|].
  apply Z.lt_le_incl. apply peak_at_lt. lia.
Qed.

Lemma suppress_left_spec (j : nat) :
  (j < List.length peaks)%nat ->
  forall k1 keep,
    (k1 <= j)%nat ->
    (forall k, nth k (suppress_left peaks distance_ j k1 keep) false = true ->
               nth k keep false = true) /\
    (forall k, (k1 <= k)%nat ->
               nth k (suppress_left peaks distance_ j k1 keep) false
               = nth k keep false) /\
    (forall k, (k < k1)%nat ->
               (peak_at peaks j - peak_at peaks k < distance_)%Z ->
               nth k (suppress_left peaks distance_ j k1 keep) false = false).
Proof.
  intro Hj. induction k1 as [|k1 IH]; intros keep Hk1; simpl.
  - repeat split; auto. intros; lia.
  - destruct (peak_at peaks j - peak_at peaks k1 <? distance_)%Z eqn:E.
    + destruct (IH (clear k1 keep)) as [H1 [H2 H3]]; [lia|].
      split; [|split].
      * intros k Hk. apply H1 in Hk. rewrite nth_clear in Hk.
        apply andb_true_iff in Hk. tauto.
      * intros k Hk. rewrite H2 by lia. rewrite nth_clear.
        assert (Hne : (k =? k1)%nat = false) by (apply Nat.eqb_neq; lia).
        rewrite Hne. reflexivity.
      * intros k Hk Hd. destruct (Nat.eq_dec k k1) as [->|Hne].
        -- rewrite H2 by lia. rewrite nth_clear, Nat.eqb_refl. reflexivity.
        -- apply H3; [lia|exact Hd].
    + apply Z.ltb_ge in E. repeat split; auto.
      intros k Hk Hd. exfalso.
      assert (peak_at peaks k <= peak_at peaks k1)%Z by (apply peak_at_le; lia).
      lia.
Qed.

Lemma suppress_right_spec (j : nat) :
  forall fuel k keep,
    (j < k)%nat ->
    (List.length peaks - k <= fuel)%nat ->
    (forall k', nth k' (suppress_right peaks distance_ j k fuel keep) false = true ->
                nth k' keep false = true) /\
    (forall k', (k' < k)%nat ->
                nth k' (suppress_right peaks distance_ j k fuel keep) false
                = nth k' keep false) /\
    (forall k', (k <= k' < List.length peaks)%nat ->
                (peak_at peaks k' - peak_at peaks j < distance_)%Z ->
                nth k' (suppress_right peaks distance_ j k fuel keep) false
                = false).
Proof.
  induction fuel as [|fuel IH]; intros k keep Hjk Hfuel; simpl.
  - repeat split; auto. intros; lia.
  - destruct ((k <? List.length peaks)%nat
              && (peak_at peaks k - peak_at peaks j <? distance_)%Z) eqn:E.
    + apply andb_true_iff in E. destruct E as [Ek Ed].
      apply Nat.ltb_lt in Ek.
      destruct (IH (S k) (clear k keep)) as [H1 [H2 H3]]; [lia|lia|].
      split; [|split].
      * intros k' Hk'. apply H1 in Hk'. rewrite nth_clear in Hk'.
        apply andb_true_iff in Hk'. tauto.
      * intros k' Hk'. rewrite H2 by lia. rewrite nth_clear.
        assert (Hne : (k' =? k)%nat = false) by (apply Nat.eqb_neq; lia).
        rewrite Hne. reflexivity.
      * intros k' Hk' Hd. destruct (Nat.eq_dec k' k) as [->|Hne].
        -- rewrite H2 by lia. rewrite nth_clear, Nat.eqb_refl. reflexivity.
        -- apply H3; [lia|exact Hd].
    + repeat split; auto. intros k' Hk' Hd. exfalso.
      apply andb_false_iff in E. destruct E as [E|E].
      * apply Nat.ltb_ge in E. lia.
      * apply Z.ltb_ge in E.
        assert (peak_at peaks k <= peak_at peaks k')%Z
          by (apply peak_at_le; lia).
        lia.
Qed.

(** One step of the selection: nothing is switched on again, and when the
    peak [j] is still kept, it stays so and every other peak closer than
    the distance is dropped. *)
Lemma select_step_spec (keep : list bool) (j : nat) :
  (j < List.length peaks)%nat ->
  (forall k, nth k (select_step peaks distance_ keep j) false = true ->
             nth k keep false = true) /\
  (nth j keep false = true ->
   nth j (select_step peaks distance_ keep j) false = true /\
   forall k, (k < List.length peaks)%nat -> k <> j ->
             (Z.abs (peak_at peaks k - peak_at peaks j) < distance_)%Z ->
             nth k (select_step peaks distance_ keep j) false = false).
Proof.
  intro Hj. unfold select_step.
  destruct (nth j keep false) eqn:Ej; [|split; [auto|discriminate]].
  destruct (suppress_left_spec j Hj j keep (Nat.le_refl j)) as [L1 [L2 L3]].
  set (keep1 := suppress_left peaks distance_ j j keep) in *.
  destruct (suppress_right_spec j (List.length peaks) (S j) keep1)
    as [R1 [R2 R3]]; [lia|lia|].
  split.
  - intros k Hk. apply L1. apply R1. exact Hk.
  - intros _. split.
    + rewrite R2 by lia. rewrite L2 by lia. exact Ej.
    + intros k Hk Hne Hd.
      destruct (Nat.lt_ge_cases k j) as [Hlt|Hge].
      * rewrite R2 by lia. apply L3; [exact Hlt|].
        assert (peak_at peaks k < peak_at peaks j)%Z by (apply peak_at_lt; lia).
        lia.
      * apply R3; [lia|].
        assert (peak_at peaks j < peak_at peaks k)%Z by (apply peak_at_lt; lia).
        lia.
Qed.

(** The invariant of the selection loop: a peak already visited and still
    kept has no other kept peak closer than the distance. *)
Definition settled (visited : nat -> Prop) (keep : list bool) : Prop :=
  forall j k, visited j -> nth j keep false = true ->
              (k < List.length peaks)%nat -> k <> j ->
              (Z.abs (peak_at peaks k - peak_at peaks j) < distance_)%Z ->
              nth k keep false = false.

Lemma select_loop_settled (order : list nat) :
  forall (visited : nat -> Prop) keep,
    Forall (fun j => (j < List.length peaks)%nat) order ->
    settled visited keep ->
    settled (fun j => visited j \/ In j order)
            (fold_left (select_step peaks distance_) order keep).
Proof.
  induction order as [|j0 order IH]; intros visited keep Hord Hinv; simpl.
  - intros j k [Hv|[]]. apply Hinv. exact Hv.
  - inversion Hord as [|? ? Hj0 Hrest]; subst.
    destruct (select_step_spec keep j0 Hj0) as [Hdec Hnew].
    assert (Hinv' : settled (fun j => visited j \/ j = j0)
                            (select_step peaks distance_ keep j0)).
    { intros j k [Hv| ->] Hkj Hk Hne Hd.
      - destruct (nth k (select_step peaks distance_ keep j0) false) eqn:Ek;
          [|reflexivity].
        apply Hdec in Ek. apply Hdec in Hkj.
        rewrite (Hinv j k Hv Hkj Hk Hne Hd) in Ek. discriminate.
      - apply Hdec in Hkj. destruct (Hnew Hkj) as [_ Hclr].
        apply Hclr; assumption. }
    specialize (IH _ _ Hrest Hinv').
    intros j k Hv. apply IH. destruct Hv as [Hv|[<-|Hin]]; auto.
Qed.

End Selection.

Lemma In_insert_by (pr : nat -> Q) (j a : nat) (l : list nat) :
  In a (insert_by pr j l) <-> a = j \/ In a l.
Proof.
  induction l as [|k l IH]; simpl; [intuition|].
  destruct (Qltb (pr j) (pr k)); simpl; [intuition|].
  rewrite IH. intuition.
Qed.

Lemma In_argsort (priority : list Q) (a : nat) :
  In a (argsort priority) <-> (a < List.length priority)%nat.
Proof.
  unfold argsort.
  assert (H : forall l acc,
             In a (fold_left (fun acc j => insert_by (get priority) j acc) l acc)
             <-> In a l \/ In a acc).
  { induction l as [|j l IH]; intro acc; simpl; [intuition|].
    rewrite IH, In_insert_by. intuition. }
  rewrite H, in_seq. simpl. intuition lia.
Qed.

Lemma In_mask (keep : list bool) :
  forall (a : list nat) (v : nat),
    In v (mask keep a) ->
    exists j, (j < List.length a)%nat /\ nth j a O = v /\ nth j keep false = true.
Proof.
  induction keep as [|b keep IH]; intros [|w a] v Hv; simpl in Hv;
    try contradiction.
  destruct b.
  - destruct Hv as [<-|Hv].
    + exists 0%nat. simpl. split; [lia|auto].
    + destruct (IH a v Hv) as [j [Hj [Hn Hk]]].
      exists (S j). simpl. split; [lia|auto].
  - destruct (IH a v Hv) as [j [Hj [Hn Hk]]].
    exists (S j). simpl. split; [lia|auto].
Qed.

(** Two positions kept by the distance rule are at least the distance,
    rounded up, apart. *)
Lemma distance_selected_apart (x : list Q) (distance : Q) (a b : nat) :
  In a (distance_selected x distance) ->
  In b (distance_selected x distance) ->
  a <> b ->
  (Qceiling distance <= Z.abs (Z.of_nat b - Z.of_nat a))%Z.
Proof.
  unfold distance_selected, select_by_peak_distance.
  set (peaks := local_maxima_1d x).
  set (keep := fold_left _ _ _).
  intros Ha Hb Hab.
  apply In_mask in Ha. destruct Ha as [j [Hj [Hja Hjk]]].
  apply In_mask in Hb. destruct Hb as [k [Hk [Hkb Hkk]]].
  assert (Hne : k <> j) by (intro; subst; congruence).
  assert (Hset : settled peaks (Qceiling distance)
                   (fun j => False \/ In j (rev (argsort (map (get x) peaks))))
                   keep).
  { apply select_loop_settled.
    - apply ScipyFacts.local_maxima_1d_sorted.
    - apply Forall_forall. intros i Hi. apply in_rev in Hi.
      apply In_argsort in Hi. rewrite length_map in Hi. exact Hi.
    - intros ? ? []. }
  destruct (Z_lt_le_dec (Z.abs (Z.of_nat b - Z.of_nat a)) (Qceiling distance))
    as [Hlt|Hle]; [|exact Hle].
  exfalso.
  assert (Hfalse : nth k keep false = false).
  { apply (Hset j k); try assumption.
    - right. apply in_rev. rewrite rev_involutive. apply In_argsort.
      rewrite length_map. exact Hj.
    - unfold peak_at. rewrite Hja, Hkb. exact Hlt. }
  congruence.
Qed.

End DistanceFacts.

Lemma Forall2_In_r {A B : Type} (R : A -> B -> Prop) (l : list A)
  (bs : list B) (b : B) :
  Forall2 R l bs -> In b bs -> exists a, In a l /\ R a b.
Proof.
  induction 1 as [|a0 b0 l bs Hab _ IH]; simpl; [contradiction|].
  intros [<-|Hin]; [eauto|].
  destruct (IH Hin) as [a [Ha HR]]. eauto.
Qed.

(** X7. Two entries of a report of [ms_report] (SciPy's detector) are never
    closer to each other than the minimum distance, counted in samples. *)
Theorem ms_report_entries_apart (ir_w ir_t : list Q)
  (prominence width distance br_w : Q) (sep : string)
  (pks : list (nat * string)) (pk pk' : nat * string) :
  ms_report Scipy.find_peaks ir_w ir_t prominence width distance br_w sep
  = Ok pks ->
  In pk pks -> In pk' pks -> fst pk <> fst pk' ->
  distance <= inject_Z (Z.abs (Z.of_nat (fst pk') - Z.of_nat (fst pk))).
Proof.
  intros H Hpk Hpk' Hne. apply ms_report_scipy_inv in H.
  destruct (Forall2_In_r _ _ _ _ H Hpk) as [a [Ha [Ea _]]].
  destruct (Forall2_In_r _ _ _ _ H Hpk') as [b [Hb [Eb _]]].
  subst a b. unfold accepted in Ha, Hb.
  apply filter_In in Ha. destruct Ha as [Ha _].
  apply filter_In in Ha. destruct Ha as [Ha _].
  apply filter_In in Hb. destruct Hb as [Hb _].
  apply filter_In in Hb. destruct Hb as [Hb _].
  pose proof (DistanceFacts.distance_selected_apart _ _ _ _ Ha Hb Hne) as Hd.
  eapply Qle_trans; [apply Qle_ceiling|]. rewrite <- Zle_Qle. exact Hd.
Qed.

Lemma ms_report_entries_apart_witness :
  3 <= inject_Z (Z.abs (Z.of_nat 4 - Z.of_nat 1)).
Proof.
  apply (ms_report_entries_apart [7; 6; 5; 4; 3; 2; 1]
           [100; 20; 100; 100; 80; 80; 100] 2 (1 # 2) 3 1 " "
           [(1%nat, "(s)"%string); (4%nat, "(w br)"%string)]
           (1%nat, "(s)"%string) (4%nat, "(w br)"%string)).
  - vm_compute. reflexivity.
  - left. reflexivity.
  - right. left. reflexivity.
  - simpl. lia.
Defined.

(** ** More on normalisation *)

Lemma np_max_Raise (a : list Q) (e : exn) :
  np_max a = Raise e <-> a = [] /\ e = ValueError.
Proof.
  destruct a; simpl; split.
  - intro H. injection H as <-. auto.
  - intros [_ ->]. reflexivity.
  - discriminate.
  - intros [H _]. discriminate H.
Qed.

Lemma process_file_raises_value_error (f : csv_file) (b : bool) (e : exn) :
  process_file f b = Raise e -> e = ValueError.
Proof.
  unfold process_file. destruct b; [|discriminate].
  destruct (np_max _) as [M|e'|] eqn:EM; simpl.
  - unfold rescale. destruct (Qeqb M 0); discriminate.
  - apply np_max_Raise in EM. destruct EM as [_ ->]. congruence.
  - discriminate.
Qed.

(** X8. How [process_file] can end when it normalises: it raises exactly
    when the transmittance column is empty, and then [ValueError]; it leaves
    the rationals (a division by zero in numpy) exactly when no sample is
    below 100 and one is at 100; it returns otherwise. *)
Theorem process_file_endings (f : csv_file) :
  (forall e, process_file f true = Raise e <-> col_T f = [] /\ e = ValueError) /\
  (process_file f true = NonFinite <->
   (forall t, In t (col_T f) -> 100 <= t) /\
   (exists t, In t (col_T f) /\ t == 100)) /\
  ((exists xy, process_file f true = Ok xy) <->
   (exists t, In t (col_T f) /\ t < 100) \/
   (col_T f <> [] /\ forall t, In t (col_T f) -> 100 < t)).
Proof.
  unfold process_file.
  destruct (col_T f) as [|t0 ts] eqn:Ecol.
  - simpl. split; [|split].
    + intro e. split; [intro H; injection H as <-; auto|intros [_ ->]; auto].
    + split; [discriminate|]. intros [_ [t [[] _]]].
    + split; [intros [xy H]; discriminate|].
      intros [[t [[] _]]|[H _]]; congruence.
  - set (inv := map (fun t => 100 - t) (t0 :: ts)).
    destruct (np_max inv) as [M| |] eqn:EM;
      [|apply np_max_Raise in EM; destruct EM; discriminate
       |unfold inv in EM; simpl in EM; discriminate].
    destruct (np_max_spec _ _ EM) as [Hin Hall].
    rewrite Forall_forall in Hall.
    assert (Hle : forall t, In t (t0 :: ts) -> 100 - t <= M).
    { intros t Ht. apply Hall. unfold inv. apply in_map_iff. eauto. }
    apply in_map_iff in Hin. destruct Hin as [tm [Htm Hin]].
    assert (Htm' : 100 - tm == M) by (rewrite Htm; reflexivity).
    simpl bind. unfold rescale.
    destruct (Qeqb M 0) eqn:E0; simpl; Qtests.
    + split; [|split].
      * intro e. split; [discriminate|]. intros [H _]. discriminate H.
      * split; [intros _|reflexivity]. split.
        -- intros t Ht. specialize (Hle t Ht). lra.
        -- exists tm. split; [exact Hin|lra].
      * split; [intros [xy H]; discriminate|].
        intros [[t [Ht Hlt]]|[_ H]].
        -- specialize (Hle t Ht). lra.
        -- specialize (H tm Hin). lra.
    + split; [|split].
      * intro e. split; [discriminate|]. intros [H _]. discriminate H.
      * split; [discriminate|]. intros [Hge [t [Ht Ht100]]]. exfalso.
        specialize (Hle t Ht). specialize (Hge tm Hin). apply E0. lra.
      * split; [intros _|eauto].
        destruct (Qlt_le_dec tm 100) as [Hlt|Hge]; [left; eauto|].
        right. split; [discriminate|]. intros t Ht.
        specialize (Hle t Ht).
        destruct (Qlt_le_dec 100 t) as [H|H]; [exact H|].
        exfalso. apply E0. lra.
Qed.

Lemma process_file_endings_witness :
  process_file {| name := "flat.csv"; abspath := "/data/flat.csv";
                  col_cm1 := [2; 1]; col_T := [100; 100] |} true
  = NonFinite.
Proof.
  apply (proj1 (proj2 (process_file_endings
           {| name := "flat.csv"; abspath := "/data/flat.csv";
              col_cm1 := [2; 1]; col_T := [100; 100] |}))).
  simpl. split.
  - intros t [<-|[<-|[]]]; apply Qle_refl.
  - exists 100. split; [left; reflexivity|reflexivity].
Defined.

Lemma normalized_value_range (ts : list Q) (M v : Q) :
  0 < M ->
  (forall t, In t ts -> 100 - t <= M) ->
  In v (normalized ts M) ->
  0 <= v /\ ((forall t, In t ts -> t <= 100) -> v <= 100).
Proof.
  intros HM Hmax Hv. unfold normalized in Hv. apply in_map_iff in Hv.
  destruct Hv as [t [<- Ht]]. specialize (Hmax t Ht). split.
  - assert (100 * (100 - t) / M <= 100)
      by (apply Qle_shift_div_r; [exact HM|lra]).
    lra.
  - intro Hall. specialize (Hall t Ht).
    assert (0 <= 100 * (100 - t) / M)
      by (apply Qle_shift_div_l; [exact HM|lra]).
    lra.
Qed.

(** X9. In exact arithmetic: when some sample lies below 100, normalisation
    leaves the wavenumbers and the number of samples as they are, returns no
    negative transmittance, and none above 100 if the file has none above
    100.  (The wavenumbers and the number of samples are kept in double
    precision too; the two bounds hold there up to rounding.) *)
Theorem normalized_stays_in_range (f : csv_file) (x y : list Q) :
  (exists t, In t (col_T f) /\ t < 100) ->
  process_file f true = Ok (x, y) ->
  x = col_cm1 f /\
  List.length y = List.length (col_T f) /\
  Forall (fun v => 0 <= v) y /\
  (Forall (fun t => t <= 100) (col_T f) -> Forall (fun v => v <= 100) y).
Proof.
  intros [t0 [Ht0 Hlt]] H. pose proof H as H'. unfold process_file in H'.
  apply bind_Ok in H'. destruct H' as [M [HM _]].
  destruct (np_max_spec _ _ HM) as [_ Hall]. rewrite Forall_forall in Hall.
  assert (Hmax : forall t, In t (col_T f) -> 100 - t <= M).
  { intros t Ht. apply Hall. apply in_map_iff. eauto. }
  assert (Hpos : 0 < M) by (specialize (Hmax t0 Ht0); lra).
  assert (Hnz : ~ M == 0) by lra.
  rewrite (process_file_normalize f M HM Hnz) in H. injection H as <- <-.
  split; [reflexivity|]. split; [apply length_map|].
  split.
  - apply Forall_forall. intros v Hv.
    apply (normalized_value_range _ _ _ Hpos Hmax Hv).
  - intro H100. rewrite Forall_forall in H100. apply Forall_forall.
    intros v Hv. apply (normalized_value_range _ _ _ Hpos Hmax Hv). exact H100.
Qed.

Lemma normalized_stays_in_range_witness :
  col_cm1 spectrum_1715 = col_cm1 spectrum_1715 /\
  List.length (normalized (col_T spectrum_1715) 40)
  = List.length (col_T spectrum_1715) /\
  Forall (fun v => 0 <= v) (normalized (col_T spectrum_1715) 40) /\
  (Forall (fun t => t <= 100) (col_T spectrum_1715) ->
   Forall (fun v => v <= 100) (normalized (col_T spectrum_1715) 40)).
Proof.
  apply (normalized_stays_in_range spectrum_1715).
  - exists 60. split; [simpl; tauto|reflexivity].
  - reflexivity.
Defined.

Lemma normalized_le_iff (M ti tj : Q) :
  0 < M ->
  (ti <= tj <-> 100 - 100 * (100 - ti) / M <= 100 - 100 * (100 - tj) / M).
Proof.
  intro HM. assert (Hnz : ~ M == 0) by lra.
  assert (Hc : 0 < 100 / M) by (apply Qlt_shift_div_l; [exact HM|lra]).
  assert (Ei : 100 - 100 * (100 - ti) / M == 100 - (100 / M) * (100 - ti))
    by (field; exact Hnz).
  assert (Ej : 100 - 100 * (100 - tj) / M == 100 - (100 / M) * (100 - tj))
    by (field; exact Hnz).
  rewrite Ei, Ej.
  pose proof (Qmult_le_l (100 - tj) (100 - ti) (100 / M) Hc) as Hm.
  split; intro H.
  - assert ((100 / M) * (100 - tj) <= (100 / M) * (100 - ti))
      by (apply Hm; lra).
    lra.
  - assert (100 - tj <= 100 - ti) by (apply Hm; lra). lra.
Qed.

(** X10. In exact arithmetic: when some sample lies below 100,
    normalisation keeps the order of the samples: of two samples of the
    file, the one with the lower transmittance still has the lower
    transmittance afterwards, so dips stay dips and stay where they are.
    (In double precision two samples that differ by less than the rounding
    of the result can be mapped to one value.) *)
Theorem normalization_keeps_order (f : csv_file) (x y : list Q)
  (i j : nat) (ti tj : Q) :
  (exists t, In t (col_T f) /\ t < 100) ->
  process_file f true = Ok (x, y) ->
  nth_error (col_T f) i = Some ti ->
  nth_error (col_T f) j = Some tj ->
  exists ni nj,
    nth_error y i = Some ni /\ nth_error y j = Some nj /\
    (ti <= tj <-> ni <= nj).
Proof.
  intros [t0 [Ht0 Hlt]] H Hi Hj. pose proof H as H'.
  unfold process_file in H'. apply bind_Ok in H'. destruct H' as [M [HM _]].
  destruct (np_max_spec _ _ HM) as [_ Hall]. rewrite Forall_forall in Hall.
  assert (Hpos : 0 < M).
  { assert (100 - t0 <= M) by (apply Hall; apply in_map_iff; eauto). lra. }
  assert (Hnz : ~ M == 0) by lra.
  rewrite (process_file_normalize f M HM Hnz) in H. injection H as <- <-.
  exists (100 - 100 * (100 - ti) / M), (100 - 100 * (100 - tj) / M).
  unfold normalized. rewrite !nth_error_map, Hi, Hj.
  repeat split; try reflexivity; apply normalized_le_iff; exact Hpos.
Qed.

Lemma normalization_keeps_order_witness :
  exists ni nj,
    nth_error (normalized (col_T spectrum_1715) 40) 4 = Some ni /\
    nth_error (normalized (col_T spectrum_1715) 40) 1 = Some nj /\
    (60 <= 90 <-> ni <= nj).
Proof.
  apply (normalization_keeps_order spectrum_1715 (col_cm1 spectrum_1715)).
  - exists 60. split; [simpl; tauto|reflexivity].
  - reflexivity.
  - reflexivity.
  - reflexivity.
Defined.

(** X11. In exact arithmetic: a spectrum whose deepest sample is at 0 (the
    maximum of [100 - t] is 100) comes out of normalisation with the same
    samples.  (In double precision: with the same samples up to rounding.) *)
Theorem normalization_fixes_normalized (f : csv_file) (M : Q) :
  np_max (map (fun t => 100 - t) (col_T f)) = Ok M ->
  M == 100 ->
  exists y, process_file f true = Ok (col_cm1 f, y) /\ same_samples (col_T f) y.
Proof.
  intros HM H100. assert (Hnz : ~ M == 0) by (rewrite H100; lra).
  exists (normalized (col_T f) M). split.
  - apply process_file_normalize; assumption.
  - unfold normalized. apply same_samples_map. intro t. rewrite H100. field.
Qed.

Lemma normalization_fixes_normalized_witness :
  exists y,
    process_file (with_T spectrum_1715 [100; 50; 0; 50; 100]) true
    = Ok (col_cm1 spectrum_1715, y) /\
    same_samples [100; 50; 0; 50; 100] y.
Proof.
  apply (normalization_fixes_normalized
           (with_T spectrum_1715 [100; 50; 0; 50; 100]) 100).
  - reflexivity.
  - reflexivity.
Defined.

Lemma Forall2_In_l {A B : Type} (R : A -> B -> Prop) (l : list A)
  (bs : list B) (a : A) :
  Forall2 R l bs -> In a l -> exists b, In b bs /\ R a b.
Proof.
  induction 1 as [|a0 b0 l bs Hab _ IH]; simpl; [contradiction|].
  intros [<-|Hin]; [eauto|].
  destruct (IH Hin) as [b [Hb HR]]. eauto.
Qed.

Lemma same_samples_related (R : Q -> Q -> Prop) (h h' : Q -> Q)
  (l l' : list Q) :
  Forall2 R l l' ->
  (forall t t', R t t' -> h t == h' t') ->
  same_samples (map h l) (map h' l').
Proof.
  intros H HR. induction H; simpl; constructor; auto.
Qed.

(** X12. Normalisation removes the scale of the absorption: two files whose
    values of [100 - t] differ, sample by sample, by one positive factor
    are normalised to the same samples. *)
Theorem normalization_scale_invariant (f g : csv_file) (c M : Q) :
  0 < c ->
  Forall2 (fun t t' => 100 - t' == c * (100 - t)) (col_T f) (col_T g) ->
  np_max (map (fun t => 100 - t) (col_T f)) = Ok M ->
  0 < M ->
  exists y y',
    process_file f true = Ok (col_cm1 f, y) /\
    process_file g true = Ok (col_cm1 g, y') /\
    same_samples y y'.
Proof.
  intros Hc Hrel HM Hpos. assert (Hnz : ~ M == 0) by lra.
  destruct (np_max_spec _ _ HM) as [Hin Hall]. rewrite Forall_forall in Hall.
  assert (Hne : map (fun t => 100 - t) (col_T g) <> []).
  { destruct Hrel; simpl; [destruct Hin|congruence]. }
  destruct (np_max_defined _ Hne) as [M' HM'].
  destruct (np_max_spec _ _ HM') as [Hin' Hall']. rewrite Forall_forall in Hall'.
  assert (EM : M' == c * M).
  { apply Qle_antisym.
    - apply in_map_iff in Hin'. destruct Hin' as [t' [<- Ht']].
      destruct (Forall2_In_r _ _ _ _ Hrel Ht') as [t [Ht ->]].
      assert (100 - t <= M) by (apply Hall; apply in_map_iff; eauto).
      apply Qmult_le_l; assumption.
    - apply in_map_iff in Hin. destruct Hin as [t [Et Ht]].
      destruct (Forall2_In_l _ _ _ _ Hrel Ht) as [t' [Ht' E]].
      assert (100 - t' <= M') by (apply Hall'; apply in_map_iff; eauto).
      rewrite <- Et, <- E. assumption. }
  assert (Hnz' : ~ M' == 0).
  { rewrite EM. intro H0.
    assert (0 < c * M) by (apply Qmult_lt_0_compat; assumption). lra. }
  exists (normalized (col_T f) M), (normalized (col_T g) M').
  split; [apply process_file_normalize; assumption|].
  split; [apply process_file_normalize; assumption|].
  unfold normalized. apply (same_samples_related _ _ _ _ _ Hrel).
  intros t t' E. cbv beta in E. rewrite E, EM. field. split; lra.
Qed.

Lemma normalization_scale_invariant_witness :
  exists y y',
    process_file (with_T spectrum_1715 [100; 80; 100]) true
    = Ok (col_cm1 spectrum_1715, y) /\
    process_file (with_T spectrum_1715 [100; 40; 100]) true
    = Ok (col_cm1 spectrum_1715, y') /\
    same_samples y y'.
Proof.
  apply (normalization_scale_invariant
           (with_T spectrum_1715 [100; 80; 100])
           (with_T spectrum_1715 [100; 40; 100]) 3 20).
  - reflexivity.
  - simpl. repeat constructor.
  - reflexivity.
  - reflexivity.
Defined.

(** ** More on the classifier *)

(** X13. [desc] returns a classification exactly for a transmittance from 0
    to 100 other than 66, and raises [ValueError] for every other value;
    width, breadth threshold and separator play no part in that.  The tag is
    [s] up to 33, [m] between 33 and 66, [w] above 66. *)
Theorem desc_classifies_exactly (t w br_w : Q) (sep : string) :
  ((exists d, desc t w br_w sep = Ok d) <->
   0 <= t /\ t <= 100 /\ ~ t == 66) /\
  ((~ exists d, desc t w br_w sep = Ok d) ->
   desc t w br_w sep = Raise ValueError) /\
  (forall d, desc t w br_w sep = Ok d ->
     exists tag : string,
       d = ("(" ++ (if Qltb br_w w then tag ++ sep ++ "br" else tag) ++ ")")%string /\
       ((t <= 33 /\ tag = "s"%string) \/
        (33 < t /\ t < 66 /\ tag = "m"%string) \/
        (66 < t /\ tag = "w"%string))).
Proof.
  split; [apply desc_returns_iff_classified|]. split.
  - intro H. destruct (desc_total t w br_w sep) as [H'|H']; [contradiction|exact H'].
  - unfold desc. intro d.
    destruct (Qleb 0 t && Qleb t 33) eqn:E1;
      [|destruct (Qltb 33 t && Qltb t 66) eqn:E2;
        [|destruct (Qltb 66 t && Qleb t 100) eqn:E3]];
      simpl; intro H; try discriminate; injection H as <-; Qtests.
    + exists "s"%string. split; [destruct (Qltb br_w w); reflexivity|auto].
    + exists "m"%string. split; [destruct (Qltb br_w w); reflexivity|auto].
    + exists "w"%string. split; [destruct (Qltb br_w w); reflexivity|auto].
Qed.

Lemma desc_classifies_exactly_witness :
  desc 120 5 100 " " = Raise ValueError.
Proof.
  apply (proj1 (proj2 (desc_classifies_exactly 120 5 100 " "))).
  intros [d H]. discriminate H.
Defined.

(** X14. The breadth tag: a width equal to the threshold, or below it, gives
    the classification without [br]; a width above it gives the same
    intensity tag followed by the separator and [br]. *)
Theorem desc_breadth_flag (t w br_w : Q) (sep d : string) :
  desc t w br_w sep = Ok d ->
  exists tag : string,
    desc t br_w br_w sep = Ok ("(" ++ tag ++ ")")%string /\
    ((w <= br_w /\ d = ("(" ++ tag ++ ")")%string) \/
     (br_w < w /\ d = ("(" ++ (tag ++ sep ++ "br") ++ ")")%string)).
Proof.
  unfold desc.
  assert (Hb : Qltb br_w br_w = false) by (apply Qltb_false; apply Qle_refl).
  rewrite Hb.
  destruct (Qleb 0 t && Qleb t 33);
    [|destruct (Qltb 33 t && Qltb t 66); [|destruct (Qltb 66 t && Qleb t 100)]];
    simpl; intro H; try discriminate; injection H as <-;
    [exists "s"%string|exists "m"%string|exists "w"%string];
    (split; [reflexivity|]);
    destruct (Qltb br_w w) eqn:E; Qtests; simpl; auto.
Qed.

Lemma desc_breadth_flag_witness :
  exists tag : string,
    desc 20 100 100 "-" = Ok ("(" ++ tag ++ ")")%string /\
    ((150 <= 100 /\ "(s-br)"%string = ("(" ++ tag ++ ")")%string) \/
     (100 < 150 /\ "(s-br)"%string = ("(" ++ (tag ++ "-" ++ "br") ++ ")")%string)).
Proof.
  apply (desc_breadth_flag 20 150 100 "-" "(s-br)").
  reflexivity.
Defined.

(** X15. Whatever the detector and whatever separator [ms_report] is given,
    the classifications in its result are among six strings, written with a
    space. *)
Theorem ms_report_six_descriptors (find_peaks : detector) (ir_w ir_t : list Q)
  (prominence width distance br_w : Q) (sep : string)
  (pks : list (nat * string)) :
  ms_report find_peaks ir_w ir_t prominence width distance br_w sep = Ok pks ->
  Forall (fun pk =>
            In (snd pk) ["(s)"; "(m)"; "(w)"; "(s br)"; "(m br)"; "(w br)"]%string)
         pks.
Proof.
  intro H. apply ms_report_inv in H.
  destruct H as [peaks [widths [_ [_ H]]]].
  eapply Forall_impl; [|exact H].
  intros [p d] [trel [w [_ Hd]]]. simpl in *.
  apply desc_form in Hd. destruct Hd as [tag [Htag ->]].
  destruct Htag as [Ht|[Ht|Ht]]; subst tag; destruct (Qltb br_w w);
    simpl; tauto.
Qed.

Lemma ms_report_six_descriptors_witness :
  Forall (fun pk =>
            In (snd pk) ["(s)"; "(m)"; "(w)"; "(s br)"; "(m br)"; "(w br)"]%string)
         [(1%nat, "(s)"%string); (4%nat, "(w br)"%string)].
Proof.
  apply (ms_report_six_descriptors Scipy.find_peaks [7; 6; 5; 4; 3; 2; 1]
           [100; 20; 100; 100; 80; 80; 100] 2 (1 # 2) 1 1 "-").
  vm_compute. reflexivity.
Defined.

(** ** [generate_report] on SciPy's detector *)

(** X16. An array of transmittances that can all be classified (each from
    0 to 100 and none at 66) is reported without failure for a minimum
    distance of at least 1: [ms_report] with SciPy's detector returns, with
    one entry for each accepted position, whichever positions these are. *)
Theorem ms_report_returns_when_classifiable (ir_w ir_t : list Q)
  (prominence width distance br_w : Q) (sep : string) :
  Forall classified ir_t ->
  ~ distance < 1 ->
  exists pks,
    ms_report Scipy.find_peaks ir_w ir_t prominence width distance br_w sep
    = Ok pks /\
    map fst pks
    = accepted (map (fun t => 100 - t) ir_t) prominence width distance.
Proof.
  intros Hall Hd.
  destruct (ms_report_cases ir_w ir_t prominence width distance br_w sep Hd)
    as [Hiff _].
  destruct (proj2 Hiff) as [pks Hpks].
  { pose proof (accepted_in_range ir_t prominence width distance) as Hr.
    rewrite Forall_forall in *. intros q Hq. apply Hall.
    apply nth_In. apply Hr. exact Hq. }
  exists pks. split; [exact Hpks|].
  apply ms_report_scipy_inv in Hpks.
  rewrite <- (map_id (accepted _ prominence width distance)).
  apply (Forall2_map_both _ (fun q => q) fst _ _) with (2 := Hpks).
  intros q pk [Hq _]. exact Hq.
Qed.

Lemma ms_report_returns_when_classifiable_witness :
  exists pks,
    ms_report Scipy.find_peaks [7; 6; 5; 4; 3; 2; 1]
              [100; 20; 100; 100; 80; 80; 100] 2 (1 # 2) 1 1 " " = Ok pks /\
    map fst pks
    = accepted (map (fun t => 100 - t) [100; 20; 100; 100; 80; 80; 100])
               2 (1 # 2) 1.
Proof.
  apply (ms_report_returns_when_classifiable [7; 6; 5; 4; 3; 2; 1]
           [100; 20; 100; 100; 80; 80; 100] 2 (1 # 2) 1 1 " ").
  - unfold classified. repeat constructor; try discriminate;
      intro H; discriminate H.
  - intro H. discriminate H.
Defined.

(** X17. On a file whose columns have the same length, [generate_report]
    with SciPy's detector raises nothing but [ValueError]: no position it
    looks up is out of range. *)
Theorem generate_report_raises_value_error (f : csv_file) (n : Z)
  (prominence width broad_width distance : Q) (e : exn) :
  List.length (col_cm1 f) = List.length (col_T f) ->
  generate_report Scipy.find_peaks f n prominence width broad_width distance
  = Raise e ->
  e = ValueError.
Proof.
  intros Hlen H.
  destruct (process_file f true) as [[x y]|e'|] eqn:Hpf.
  - destruct (Qlt_le_dec distance 1) as [Hd|Hd].
    + unfold generate_report in H. rewrite Hpf in H. cbn [bind] in H.
      rewrite (ms_report_below_distance x y prominence width distance
                 broad_width " " Hd) in H.
      simpl in H. congruence.
    + assert (Hd' : ~ distance < 1) by lra.
      destruct (ms_report_cases x y prominence width distance
                                broad_width " " Hd') as [_ [[pks Hpks]|Hr]].
      * rewrite (generate_report_run _ f n _ _ _ _ x y pks Hlen Hpf Hpks) in H.
        discriminate H.
      * unfold generate_report in H. rewrite Hpf in H. cbn [bind] in H.
        rewrite Hr in H. simpl in H. congruence.
  - unfold generate_report in H. rewrite Hpf in H. simpl in H.
    apply process_file_raises_value_error in Hpf. congruence.
  - unfold generate_report in H. rewrite Hpf in H. discriminate H.
Qed.

Lemma generate_report_raises_value_error_witness :
  ValueError = ValueError.
Proof.
  apply (generate_report_raises_value_error spectrum_1715 1 5 4 100 0
           ValueError).
  - reflexivity.
  - vm_compute. reflexivity.
Defined.

(** ** The loop of [main] *)

Lemma main_file_lines (find_peaks : detector) (parsed : arguments)
  (f : csv_file) :
  (snd (main_file find_peaks parsed f) = Ok tt ->
   exists summary,
     fst (main_file find_peaks parsed f)
     = [(">>> " ++ abspath f)%string; summary]) /\
  (snd (main_file find_peaks parsed f) <> Ok tt ->
   fst (main_file find_peaks parsed f) = [(">>> " ++ abspath f)%string]).
Proof.
  unfold main_file.
  destruct (returned_report find_peaks parsed f) as [[drawn report]| |]; simpl;
    try (split; [discriminate|reflexivity]).
  destruct (plot_format parsed _); simpl;
    [split; [discriminate|reflexivity]|].
  split; [eauto|congruence].
Qed.

Lemma main_loop_app (find_peaks : detector) (parsed : arguments)
  (before rest : list csv_file) :
  Forall (fun f => snd (main_file find_peaks parsed f) = Ok tt) before ->
  main_loop find_peaks parsed (before ++ rest)%list
  = ((flat_map (fun f => fst (main_file find_peaks parsed f)) before
      ++ fst (main_loop find_peaks parsed rest))%list,
     snd (main_loop find_peaks parsed rest)).
Proof.
  induction 1 as [|f before Hf _ IH]; simpl.
  - destruct (main_loop find_peaks parsed rest); reflexivity.
  - destruct (main_file find_peaks parsed f) as [out r]. simpl in Hf. subst r.
    rewrite IH. simpl. rewrite app_assoc. reflexivity.
Qed.

Lemma for_each_finite {A B : Type} (body : A -> outcome B) (l : list A) :
  (forall a, body a <> NonFinite) -> for_each body l <> NonFinite.
Proof.
  intro Hb. induction l as [|a l IH]; simpl; [discriminate|].
  specialize (Hb a). destruct (body a); simpl; [|discriminate|congruence].
  destruct (for_each body l); simpl; [discriminate|discriminate|congruence].
Qed.

Lemma index_finite {A : Type} (a : list A) (i : nat) : index a i <> NonFinite.
Proof. unfold index. destruct (nth_error a i); discriminate. Qed.

(** With SciPy's detector a turn of the loop ends normally or by an
    exception: a file whose normalised array is not finite is a file without
    peaks (or with a rejected distance), not a failure of its own. *)
Lemma main_file_scipy_ending (parsed : arguments) (f : csv_file) :
  snd (main_file Scipy.find_peaks parsed f) <> NonFinite.
Proof.
  assert (Hfp : forall x p w d, Scipy.find_peaks x p w d <> NonFinite).
  { intros x p w d. destruct (Qlt_le_dec d 1) as [Hd|Hd].
    - rewrite (proj1 (ScipyFacts.find_peaks_outcome _ _ _ _) Hd). discriminate.
    - assert (Hd' : ~ d < 1) by lra.
      destruct (proj2 (ScipyFacts.find_peaks_outcome x p w d) Hd') as [r ->].
      discriminate. }
  assert (Hret : returned_report Scipy.find_peaks parsed f <> NonFinite).
  { unfold returned_report.
    destruct (process_file f true) as [[x y]|e|] eqn:Hpf; [|discriminate|].
    - unfold generate_report. rewrite Hpf. cbn [bind].
      set (pr := peak_min_prominence parsed). set (w := peak_min_width parsed).
      set (b := broad_peak_min_width parsed). set (d := peak_min_distance parsed).
      assert (Hms : ms_report Scipy.find_peaks x y pr w d b " " <> NonFinite).
      { unfold ms_report. specialize (Hfp (map (fun t => 100 - t) y) pr w d).
        destruct (Scipy.find_peaks _ pr w d) as [[peaks widths]| |];
          simpl; [|discriminate|congruence].
        apply for_each_finite. intros [i p].
        destruct (index y p) as [trel| |] eqn:E1; simpl;
          [|discriminate|exfalso; exact (index_finite _ _ E1)].
        destruct (index widths i) as [wd| |] eqn:E2; simpl;
          [|discriminate|exfalso; exact (index_finite _ _ E2)].
        destruct (desc_total trel wd b " ") as [[de Hde]|Hde];
          rewrite Hde; simpl; discriminate. }
      destruct (ms_report Scipy.find_peaks x y pr w d b " ") as [pks| |];
        simpl; [|discriminate|congruence].
      match goal with
      | |- bind ?c _ <> _ =>
          assert (Hloop : c <> NonFinite);
          [|destruct c; simpl; [discriminate|discriminate|congruence]]
      end.
      apply for_each_finite. intros [p de].
      destruct (index x p) as [xp| |] eqn:E1; simpl;
        [|discriminate|exfalso; exact (index_finite _ _ E1)].
      destruct (index y p) as [yp| |] eqn:E2; simpl;
        [discriminate|discriminate|exfalso; exact (index_finite _ _ E2)].
    - unfold generate_report_not_finite, ms_report_not_finite.
      set (n := List.length (col_T f)).
      specialize (Hfp (repeat 0 n) (peak_min_prominence parsed)
                      (peak_min_width parsed) (peak_min_distance parsed)).
      destruct (Scipy.find_peaks _ _ _ _) as [[peaks widths]| |];
        simpl; [|discriminate|congruence].
      match goal with
      | |- bind ?c _ <> _ =>
          assert (Hloop : c <> NonFinite);
          [|destruct c; simpl; [discriminate|discriminate|congruence]]
      end.
      apply for_each_finite. intros [i p].
      destruct (index (repeat 0 n) p) as [trel| |] eqn:E1; simpl;
        [|discriminate|exfalso; exact (index_finite _ _ E1)].
      destruct (index widths i) as [wd| |] eqn:E2; simpl;
        [discriminate|discriminate|exfalso; exact (index_finite _ _ E2)]. }
  unfold main_file.
  destruct (returned_report Scipy.find_peaks parsed f) as [[drawn report]| |];
    simpl; [|discriminate|congruence].
  destruct (plot_format parsed _); simpl; discriminate.
Qed.

Lemma process_file_not_finite (f : csv_file) :
  (forall t, In t (col_T f) -> 100 <= t) ->
  (exists t, In t (col_T f) /\ t == 100) ->
  process_file f true = NonFinite.
Proof.
  intros Hge [t0 [Ht0 E0]]. unfold process_file.
  destruct (np_max (map (fun t => 100 - t) (col_T f))) as [M|e|] eqn:EM.
  - destruct (np_max_spec _ _ EM) as [Hin Hall].
    rewrite Forall_forall in Hall.
    apply in_map_iff in Hin. destruct Hin as [tm [Htm Hin]].
    assert (Htm' : 100 - tm == M) by (rewrite Htm; reflexivity).
    assert (H0 : 100 - t0 <= M) by (apply Hall; apply in_map_iff; eauto).
    specialize (Hge tm Hin).
    assert (EM0 : Qeqb M 0 = true) by (apply Qeqb_spec; lra).
    simpl. unfold rescale. rewrite EM0. reflexivity.
  - apply np_max_Raise in EM. destruct EM as [Hnil _].
    destruct (col_T f); [destruct Ht0|discriminate Hnil].
  - destruct (col_T f); discriminate EM.
Qed.

Lemma local_maxima_loop_constant (n i_max : nat) :
  forall fuel i, Scipy.local_maxima_loop (repeat 0 n) i_max i fuel = [].
Proof.
  induction fuel as [|fuel IH]; intro i; simpl; [reflexivity|].
  destruct (i <? i_max)%nat; [|reflexivity].
  unfold Scipy.get at 1 2. rewrite !nth_repeat.
  change (Qltb 0 0) with false. cbv iota. apply IH.
Qed.

(** SciPy's detector on a constant signal: the distance is checked, and
    there is no peak. *)
Lemma find_peaks_constant (n : nat) (prominence width distance : Q) :
  ~ distance < 1 ->
  Scipy.find_peaks (repeat 0 n) prominence width distance = Ok ([], []).
Proof.
  intro Hd. unfold Scipy.find_peaks.
  destruct (Qltb distance 1) eqn:E; Qtests; [contradiction|].
  unfold Scipy.local_maxima_1d. rewrite local_maxima_loop_constant.
  reflexivity.
Qed.

(** X22. A spectrum with no sample below 100 and one at 100 (a flat
    spectrum at full transmittance among them) divides by zero in the
    normalisation and goes on: with SciPy's detector and a minimum distance
    of at least 1 no peak is found, and once the plot name is formatted the
    file's output is its header line and the summary line ["IR (ATR): ."];
    the turn ends normally, so the batch goes on with the next file. *)
Theorem flat_spectrum_summary (parsed : arguments) (f : csv_file)
  (plot_name : string) :
  (forall t, In t (col_T f) -> 100 <= t) ->
  (exists t, In t (col_T f) /\ t == 100) ->
  ~ peak_min_distance parsed < 1 ->
  plot_format parsed (removesuffix (name f) ".csv") = inr plot_name ->
  returned_report Scipy.find_peaks parsed f = Ok ([], []) /\
  main_file Scipy.find_peaks parsed f
  = ([(">>> " ++ abspath f)%string; "IR (ATR): ."%string], Ok tt).
Proof.
  intros Hge Hex Hd Hp.
  assert (Hnf : process_file f true = NonFinite).
  { apply process_file_not_finite; assumption. }
  assert (Hret : returned_report Scipy.find_peaks parsed f = Ok ([], [])).
  { unfold returned_report. rewrite Hnf.
    unfold generate_report_not_finite, ms_report_not_finite.
    rewrite (find_peaks_constant _ _ _ _ Hd). reflexivity. }
  split; [exact Hret|].
  apply (main_file_of_report _ _ _ _ _ _ Hret Hp).
Qed.

Lemma flat_spectrum_summary_witness :
  returned_report Scipy.find_peaks default_arguments spectrum_flat
  = Ok ([], []) /\
  main_file Scipy.find_peaks default_arguments spectrum_flat
  = ([">>> /data/blank.csv"; "IR (ATR): ."]%string, Ok tt).
Proof.
  apply (flat_spectrum_summary default_arguments spectrum_flat "blank.svg").
  - intros t [<-|[<-|[<-|[]]]]; apply Qle_refl.
  - exists 100. split; [left; reflexivity|reflexivity].
  - intro H. discriminate H.
  - reflexivity.
Defined.

(** X18. When every file of the batch is processed without failure, [main]
    prints for each file, in the order of the list, its header line and its
    summary line: two lines per file, and nothing else, on [outstream].  A
    file without peaks, a flat spectrum among them, is such a file. *)
Theorem main_loop_completes (find_peaks : detector) (parsed : arguments)
  (all_files : list csv_file) :
  Forall (fun f => snd (main_file find_peaks parsed f) = Ok tt) all_files ->
  main_loop find_peaks parsed all_files
  = (flat_map (fun f => fst (main_file find_peaks parsed f)) all_files, Ok tt) /\
  List.length (fst (main_loop find_peaks parsed all_files))
  = (2 * List.length all_files)%nat.
Proof.
  intro H.
  assert (E : main_loop find_peaks parsed all_files
              = (flat_map (fun f => fst (main_file find_peaks parsed f)) all_files,
                 Ok tt)).
  { rewrite <- (app_nil_r all_files) at 1.
    rewrite (main_loop_app _ _ _ [] H). simpl. rewrite app_nil_r. reflexivity. }
  split; [exact E|]. rewrite E. simpl. clear E.
  induction H as [|f l Hf _ IH]; simpl; [reflexivity|].
  destruct (proj1 (main_file_lines find_peaks parsed f) Hf) as [summary ->].
  simpl. rewrite IH. lia.
Qed.

Lemma main_loop_completes_witness :
  main_loop Scipy.find_peaks default_arguments
            [spectrum_1715; spectrum_flat; spectrum_1715]
  = ([">>> /data/ketone.csv"; "IR (ATR): 1715 (s).";
      ">>> /data/blank.csv"; "IR (ATR): .";
      ">>> /data/ketone.csv"; "IR (ATR): 1715 (s)."]%string, Ok tt).
Proof.
  apply (main_loop_completes Scipy.find_peaks default_arguments
           [spectrum_1715; spectrum_flat; spectrum_1715]).
  repeat constructor.
Defined.

(** X19. An exception ends the batch: the files before the one that
    raises are reported in full, the raising file leaves its header line
    alone, and the files after it are not touched; the batch ends with that
    exception. *)
Theorem main_loop_stops_at_failure (find_peaks : detector)
  (parsed : arguments) (before after : list csv_file) (f : csv_file)
  (e : exn) :
  Forall (fun g => snd (main_file find_peaks parsed g) = Ok tt) before ->
  snd (main_file find_peaks parsed f) = Raise e ->
  main_loop find_peaks parsed (before ++ f :: after)%list
  = ((flat_map (fun g => fst (main_file find_peaks parsed g)) before
      ++ [(">>> " ++ abspath f)%string])%list,
     Raise e).
Proof.
  intros Hb Hf. rewrite (main_loop_app _ _ _ _ Hb).
  assert (Hne : snd (main_file find_peaks parsed f) <> Ok tt)
    by (rewrite Hf; discriminate).
  pose proof (proj2 (main_file_lines find_peaks parsed f) Hne) as Hout.
  simpl. destruct (main_file find_peaks parsed f) as [out r].
  simpl in *. subst out r. reflexivity.
Qed.

Lemma main_loop_stops_at_failure_witness :
  main_loop Scipy.find_peaks default_arguments
            [spectrum_flat; with_T spectrum_1715 []; spectrum_1715]
  = ([">>> /data/blank.csv"; "IR (ATR): .";
      ">>> /data/ketone.csv"]%string, Raise ValueError).
Proof.
  apply (main_loop_stops_at_failure Scipy.find_peaks default_arguments
           [spectrum_flat] [spectrum_1715] (with_T spectrum_1715 [])
           ValueError).
  - repeat constructor.
  - vm_compute. reflexivity.
Defined.

(** ** The list of files *)

Lemma get_all_files_from (glob : string -> list string)
  (file_args : list string) :
  forall all_files,
    fold_left (fun all_files f => (all_files ++ glob f)%list) file_args all_files
    = (all_files ++ flat_map glob file_args)%list.
Proof.
  induction file_args as [|a l IH]; intro acc; simpl.
  - rewrite app_nil_r. reflexivity.
  - rewrite IH, <- app_assoc. reflexivity.
Qed.

Lemma get_all_files_flat_map (glob : string -> list string)
  (file_args : list string) :
  get_all_files glob file_args = flat_map glob file_args.
Proof. unfold get_all_files. rewrite get_all_files_from. reflexivity. Qed.

(** X20. [get_all_files] lists the matches of the arguments in the order of
    the arguments: a name is listed when some argument matches it, once for
    every match (a file matched by two arguments is listed, and so
    processed, twice), and the list is empty only when no argument matches
    anything. *)
Theorem get_all_files_matches (glob : string -> list string)
  (file_args more_args : list string) :
  (forall name,
     In name (get_all_files glob file_args) <->
     exists a, In a file_args /\ In name (glob a)) /\
  (get_all_files glob file_args = [] <->
   forall a, In a file_args -> glob a = []) /\
  (forall name,
     count_occ string_dec (get_all_files glob file_args) name
     = list_sum (map (fun a => count_occ string_dec (glob a) name) file_args)) /\
  get_all_files glob (file_args ++ more_args)%list
  = (get_all_files glob file_args ++ get_all_files glob more_args)%list.
Proof.
  rewrite !get_all_files_flat_map. split; [|split; [|split]].
  - intro name. apply in_flat_map.
  - induction file_args as [|a l IH]; simpl.
    + split; [intros _ a []|reflexivity].
    + split.
      * intro H. apply app_eq_nil in H. destruct H as [Ha Hl].
        intros b [<-|Hb]; [exact Ha|]. apply IH; assumption.
      * intro H. rewrite (H a) by (left; reflexivity). simpl.
        apply IH. intros b Hb. apply H. right. exact Hb.
  - intro name. induction file_args as [|a l IH]; simpl; [reflexivity|].
    rewrite count_occ_app, IH. reflexivity.
  - apply flat_map_app.
Qed.

(** ** The printed wavenumber *)

Lemma round_half_even_nonneg (v : Q) : 0 <= v -> (0 <= round_half_even v)%Z.
Proof.
  intro H. unfold round_half_even.
  assert (Hfl : (0 <= Qfloor v)%Z).
  { change 0%Z with (Qfloor 0). apply Qfloor_resp_le. exact H. }
  destruct (Qltb _ _); [exact Hfl|].
  destruct (Qltb _ _); [lia|]. destruct (Z.even _); lia.
Qed.

Lemma round_half_even_tie (v : Q) :
  (v - inject_Z (round_half_even v) == 1 # 2 \/
   inject_Z (round_half_even v) - v == 1 # 2) ->
  Z.even (round_half_even v) = true.
Proof.
  unfold round_half_even.
  pose proof (Qfloor_le v) as Hlo. pose proof (Qlt_floor v) as Hhi.
  rewrite inject_Z_plus in Hhi. change (inject_Z 1) with 1 in Hhi.
  destruct (Qltb (v - inject_Z (Qfloor v)) (1 # 2)) eqn:E1; Qtests.
  - intros [H|H]; exfalso; lra.
  - destruct (Qltb (1 # 2) (v - inject_Z (Qfloor v))) eqn:E2; Qtests.
    + rewrite inject_Z_plus. change (inject_Z 1) with 1.
      intros [H|H]; exfalso; lra.
    + intros _. destruct (Z.even (Qfloor v)) eqn:Ev; [exact Ev|].
      change (Qfloor v + 1)%Z with (Z.succ (Qfloor v)).
      rewrite Z.even_succ, <- Z.negb_even, Ev. reflexivity.
Qed.

Lemma to_uint_nonnil (n : N) : N.to_uint n <> Decimal.Nil.
Proof.
  destruct n as [|p]; [discriminate|].
  apply DecimalPos.Unsigned.to_uint_nonnil.
Qed.

Lemma digits_inj (z z' : Z) :
  (0 <= z)%Z -> (0 <= z')%Z -> digits z = digits z' -> z = z'.
Proof.
  intros Hz Hz' H. unfold digits in H.
  assert (E : Some (N.to_uint (Z.to_N z)) = Some (N.to_uint (Z.to_N z'))).
  { rewrite <- (NilZero.usu _ (to_uint_nonnil (Z.to_N z))).
    rewrite <- (NilZero.usu _ (to_uint_nonnil (Z.to_N z'))).
    rewrite H. reflexivity. }
  injection E as E. apply DecimalN.Unsigned.to_uint_inj in E.
  apply Z2N.inj; assumption.
Qed.

(** X21. A wavenumber that is not negative is printed as the decimal digits
    of a nearest integer, which is at most one half away; when the two
    neighbours are equally near, the even one is printed; and two such
    wavenumbers are printed alike only when they round to the same
    integer. *)
Theorem format_0f_nearest_integer (v : Q) :
  0 <= v ->
  exists z : Z,
    (0 <= z)%Z /\
    format_0f v = digits z /\
    Qabs (v - inject_Z z) <= 1 # 2 /\
    ((v - inject_Z z == 1 # 2 \/ inject_Z z - v == 1 # 2) -> Z.even z = true) /\
    (forall v', 0 <= v' -> format_0f v' = format_0f v ->
                round_half_even v' = z).
Proof.
  intro Hv.
  assert (Hfmt : forall u, 0 <= u -> format_0f u = digits (round_half_even u)).
  { intros u Hu. unfold format_0f.
    assert (E : Qltb u 0 = false) by (apply Qltb_false; exact Hu).
    rewrite E. reflexivity. }
  exists (round_half_even v).
  split; [apply round_half_even_nonneg; exact Hv|].
  split; [apply Hfmt; exact Hv|].
  split; [apply round_half_even_nearest|].
  split; [apply round_half_even_tie|].
  intros v' Hv' H. rewrite (Hfmt v Hv), (Hfmt v' Hv') in H.
  apply digits_inj; [apply round_half_even_nonneg; exact Hv'
                    |apply round_half_even_nonneg; exact Hv|exact H].
Qed.

Lemma format_0f_nearest_integer_witness :
  exists z : Z,
    (0 <= z)%Z /\
    format_0f (34291 # 20) = digits z /\
    Qabs ((34291 # 20) - inject_Z z) <= 1 # 2 /\
    (((34291 # 20) - inject_Z z == 1 # 2 \/ inject_Z z - (34291 # 20) == 1 # 2) ->
     Z.even z = true) /\
    (forall v', 0 <= v' -> format_0f v' = format_0f (34291 # 20) ->
                round_half_even v' = z).
Proof.
  apply (format_0f_nearest_integer (34291 # 20)).
  discriminate.
Defined.
